(** * CinemaAbyss: strangler-fig proxy and events service

    A shallow embedding of the two Go programs of the repository
    (both are [package main] in [src/microservices]):

    - the proxy ([Module Proxy]): configuration resolved from the
      environment at startup, the request multiplexer it registers its
      handlers on, and the per-request routing switch;
    - the events service ([Module Events]): the HTTP producer handler
      [handleEvent], the consumer loop [consume] and the goroutine
      structure of [main].

    Go [string] and [[]byte] values are byte sequences and are both modelled
    by [string]; Go [int] values are modelled by [Z] (the programs only
    compare them, no arithmetic is performed on them). *)

From Stdlib Require Import ZArith String Ascii List Lia.
From Stdlib Require Floats.SpecFloat Numbers.DecimalString Numbers.DecimalZ.
From stdpp Require Import base option gmap strings.

Local Open Scope string_scope.
Local Open Scope list_scope.
Local Open Scope Z_scope.

(** ** A small state monad

    Handlers thread a world (random source, broker client, log) through
    their calls; [M S A] is the type of such computations. *)

Definition M (S A : Type) : Type := S -> A * S.

Definition ret {S A} (a : A) : M S A := fun s => (a, s).

Definition bind {S A B} (m : M S A) (k : A -> M S B) : M S B :=
  fun s => let (a, s') := m s in k a s'.

Notation "'let*' x := m 'in' k" := (bind m (fun x => k))
  (at level 10, x name, m at level 100, k at level 200, only parsing).
Notation "m >> k" := (bind m (fun _ => k))
  (at level 61, left associativity, only parsing).

(** [strings.HasPrefix(s, prefix)]: [s] is at least as long as [prefix]
    and starts with the bytes of [prefix]. *)
Fixpoint HasPrefix (s prefix : string) : bool :=
  match prefix, s with
  | EmptyString, _ => true
  | String _ _, EmptyString => false
  | String p prefix', String c s' => Ascii.eqb c p && HasPrefix s' prefix'
  end.

(** ** The request multiplexer of [net/http]

    Both programs register their handlers on the default [http.ServeMux].
    Before it looks up a handler, the mux brings the path of a request
    whose method is not CONNECT to its canonical form ([cleanPath] of
    [net/http/server.go]); a request whose path is not in that form
    already is answered by the mux itself, with a redirect to the
    canonical path, and no handler runs.  The path of a request is
    [r.URL.Path]: it begins with a slash, or is empty (a request line
    that names no path).  The request line is taken to hold no
    percent-encoded byte, so that [r.URL.EscapedPath()] is the same
    text; the asterisk form of the request line ([OPTIONS *]), which the
    server answers before any lookup, is left out. *)

(** The elements of a path: the texts between its slashes. *)
Fixpoint elements (p : string) : list string :=
  match p with
  | EmptyString => [EmptyString]
  | String ch p' =>
      if Ascii.eqb ch "/"%char then EmptyString :: elements p'
      else match elements p' with
           | e :: es => String ch e :: es
           | [] => [String ch EmptyString]
           end
  end.

(** One element in the scan of [path.Clean] over a rooted path: an empty
    element and [.] are dropped, [..] removes the element kept before it
    (and is dropped at the root), every other element is kept.  [kept]
    holds the elements kept so far, the last one first. *)
Definition cleanElement (kept : list string) (e : string) : list string :=
  match e with
  | EmptyString => kept
  | _ =>
      if String.eqb e "." then kept
      else if String.eqb e ".." then tail kept
      else e :: kept
  end.

Fixpoint joinElements (es : list string) : string :=
  match es with
  | [] => EmptyString
  | e :: es' =>
      match es' with
      | [] => e
      | _ => e +:+ "/" +:+ joinElements es'
      end
  end.

(** [path.Clean] on a path that begins with a slash. *)
Definition path_Clean (p : string) : string :=
  "/" +:+ joinElements (rev (fold_left cleanElement (elements p) [])).

Fixpoint endsWithSlash (p : string) : bool :=
  match p with
  | EmptyString => false
  | String ch p' =>
      match p' with
      | EmptyString => Ascii.eqb ch "/"%char
      | _ => endsWithSlash p'
      end
  end.

(** [cleanPath]: the canonical path of [p], which begins with a slash,
    has no empty, [.] or [..] element, and keeps the trailing slash of
    [p]. *)
Definition cleanPath (p : string) : string :=
  match p with
  | EmptyString => "/"
  | String ch _ =>
      let p := if Ascii.eqb ch "/"%char then p else "/" +:+ p in
      let np := path_Clean p in
      if endsWithSlash p && negb (String.eqb np "/") then np +:+ "/"
      else np
  end.

(** Whether the mux looks up a handler for the request as it is: the
    method is CONNECT (then the path is not brought to canonical form)
    or the path is canonical already.  Otherwise it redirects. *)
Definition canonical (method path : string) : bool :=
  String.eqb method "CONNECT" || String.eqb (cleanPath path) path.

(** A [log.Printf] (or [log.Fatalf]) call: the format and its operands;
    [E] is the type of the [error] values of the program. *)
Inductive Arg (E : Type) : Type :=
| Str (s : string)
| Int (n : Z)
| Bool (b : bool)
| Err (e : E).
Arguments Str {E} s.
Arguments Int {E} n.
Arguments Bool {E} b.
Arguments Err {E} e.

Record LogLine (E : Type) : Type :=
  Printf { format : string; args : list (Arg E) }.
Arguments Printf {E} format args.
Arguments format {E} _.
Arguments args {E} _.

(** The double quote and the line feed. *)
Definition dq : string := String (ascii_of_nat 34) EmptyString.
Definition nl : string := String (ascii_of_nat 10) EmptyString.

(** [os.LookupEnv] reads the process environment, a finite map. *)
Definition Environ : Type := gmap string string.

(** ** The proxy *)

Module Proxy.

(** The [error] values of the proxy: the [*strconv.NumError] struct of
    [strconv.Atoi], or another error, held by its [Error()] text. *)
Inductive error : Type :=
| NumError (Func Num Err : string)
| ErrorString (text : string).

(** The global [math/rand] source: [Intn n] returns a number of the
    half-open interval [[0,n)] and advances the source. *)
Class RandSource (G : Type) : Type := {
  Intn : Z -> G -> Z * G;
  Intn_range : forall n g, 0 < n -> 0 <= fst (Intn n g) < n
}.

Definition getEnv (env : Environ) (key fallback : string) : string :=
  match env !! key with
  | Some value => value
  | None => fallback
  end.

(** The three upstream origins a request can be handed to. *)
Inductive Origin : Type := Monolith | MoviesService | EventsService.

#[export] Instance Origin_eq_dec : EqDecision Origin.
Proof. solve_decision. Defined.

(** What the variables of [main] captured by the two handlers hold once
    startup has completed. *)
Record Config : Type := {
  port : string;
  monolithURL : string;
  moviesServiceURL : string;
  eventsServiceURL : string;
  gradualMigrationEnabled : bool;
  migrationPercent : Z
}.

(** A request: [r.Method] and [r.URL.Path]. *)
Record Request : Type := {
  Method : string;
  Path : string
}.

(** The outcome of serving one request: a handler hands it to the
    reverse proxy of one origin ([ServeHTTP] of that proxy), a handler
    (or the mux, for a path no pattern matches) answers by itself, or
    the mux answers with a redirect to the canonical path. *)
Inductive Served : Type :=
| ProxyTo (o : Origin)
| Respond (status : Z) (body : string)
| Redirect (location : string).

(** The world of a proxy handler: the random source and the log, which
    holds the lines the handlers of [main] write ([log.Printf]) up to the
    point where they hand the request to a reverse proxy. *)
Record World (G : Type) : Type := {
  rng : G;
  logged : list (LogLine error)
}.
Arguments rng {G} _.
Arguments logged {G} _.

Section Handlers.
Context {G : Type} `{RandSource G}.

Definition log_Printf (format : string) (args : list (Arg error))
  : M (World G) unit :=
  fun w => (tt, {| rng := rng w;
                   logged := logged w ++ [Printf format args] |}).

Definition rand_Intn (n : Z) : M (World G) Z :=
  fun w => let (v, g) := Intn n (rng w) in
           (v, {| rng := g; logged := logged w |}).

(** [gradualMigrationEnabled && rand.Intn(100) < migrationPercent]:
    [&&] does not evaluate its right operand when the left one is false,
    so no number is drawn when migration is disabled. *)
Definition migrationRoll (cfg : Config) : M (World G) bool :=
  if gradualMigrationEnabled cfg
  then let* v := rand_Intn 100 in ret (v <? migrationPercent cfg)
  else ret false.

(** The handler registered on the pattern ["/"]. *)
Definition rootHandler (cfg : Config) (r : Request) : M (World G) Served :=
  log_Printf "Incoming request: %s %s" [Str (Method r); Str (Path r)] >>
  if HasPrefix (Path r) "/api/movies" then
    let* migrate := migrationRoll cfg in
    if migrate then
      log_Printf "Routing to movies-service (migration)" [] >>
      ret (ProxyTo MoviesService)
    else
      log_Printf "Routing to monolith" [] >>
      ret (ProxyTo Monolith)
  else if HasPrefix (Path r) "/api/events" then
    log_Printf "Routing to events-service" [] >>
    ret (ProxyTo EventsService)
  else
    log_Printf "Routing to monolith (default)" [] >>
    ret (ProxyTo Monolith).

(** The handler registered on the pattern ["/health"]. *)
Definition healthHandler (r : Request) : M (World G) Served :=
  ret (Respond 200 "Strangler Fig Proxy is healthy").

(** [http.NotFound], the answer of the mux when no pattern matches. *)
Definition notFound : M (World G) Served :=
  ret (Respond 404 ("404 page not found" +:+ nl)).

(** The handler the mux finds for a path, with the two patterns
    registered by [main]: ["/health"] has no trailing slash and matches
    that path only, ["/"] matches every other path that begins with a
    slash. *)
Definition handler (cfg : Config) (r : Request) : M (World G) Served :=
  if String.eqb (Path r) "/health" then healthHandler r
  else if HasPrefix (Path r) "/" then rootHandler cfg r
  else notFound.

(** The default [http.ServeMux] serving one request: a request whose
    path is not canonical (and whose method is not CONNECT) is
    redirected to the canonical path, and neither handler runs. *)
Definition serve (cfg : Config) (r : Request) : M (World G) Served :=
  if canonical (Method r) (Path r) then handler cfg r
  else ret (Redirect (cleanPath (Path r))).

(** The number the next [rand.Intn(100)] call returns in world [w]. *)
Definition nextRoll (w : World G) : Z := fst (Intn 100 (rng w)).

End Handlers.

(** The origin the routing switch selects, as a function of the
    configuration, the path and the number drawn. *)
Definition selected (cfg : Config) (path : string) (roll : Z) : Origin :=
  if HasPrefix path "/api/movies" then
    if gradualMigrationEnabled cfg && (roll <? migrationPercent cfg)
    then MoviesService else Monolith
  else if HasPrefix path "/api/events" then EventsService
  else Monolith.

(** *** Startup *)

(** [strconv.Atoi] of the standard library: an optional sign followed by
    one or more decimal digits, the value within the range of [int]
    (64 bits).  Its error is a [*NumError] whose [Err] is
    [ErrSyntax] or [ErrRange]. *)

Definition intSize : Z := 64.
Definition maxInt : Z := 2 ^ (intSize - 1) - 1.
Definition minInt : Z := - 2 ^ (intSize - 1).
Definition maxUint64 : Z := 2 ^ 64 - 1.

Definition isDigit (ch : ascii) : bool :=
  let n := Z.of_N (N_of_ascii ch) in (48 <=? n) && (n <=? 57).

Definition ErrSyntax : string := "invalid syntax".
Definition ErrRange : string := "value out of range".

(** The scan of [strconv.ParseUint] in base 10: it ends at the first
    byte that is not a digit ([ErrSyntax]), or at the first digit that
    takes the value above the largest [uint64] ([ErrRange]). *)
Fixpoint parseDigits (s : string) (n : Z) : string + Z :=
  match s with
  | EmptyString => inr n
  | String ch s' =>
      if isDigit ch
      then let n1 := n * 10 + (Z.of_N (N_of_ascii ch) - 48) in
           if maxUint64 <? n1 then inl ErrRange
           else parseDigits s' n1
      else inl ErrSyntax
  end.

Definition syntaxError (fn str : string) : error :=
  NumError fn str ErrSyntax.
Definition rangeError (fn str : string) : error :=
  NumError fn str ErrRange.

Definition Atoi (s0 : string) : error + Z :=
  let (neg, s) :=
    match s0 with
    | String "-" t => (true, t)
    | String "+" t => (false, t)
    | _ => (false, s0)
    end in
  match s with
  | EmptyString => inl (syntaxError "Atoi" s0)
  | _ =>
      match parseDigits s 0 with
      | inl err => inl (NumError "Atoi" s0 err)
      | inr n =>
          let v := if neg : bool then - n else n in
          if (minInt <=? v) && (v <=? maxInt) then inr v
          else inl (rangeError "Atoi" s0)
      end
  end.

(** How far [main] gets before it serves: [Fatal], a [log.Fatalf] (which
    exits the process with status 1 after logging) before any request is
    served, or [ListenAndServe], the call of [http.ListenAndServe] on
    [addr] with the two handlers registered, which close over [cfg]. *)
Inductive Startup : Type :=
| Fatal (log : list (LogLine error))
| ListenAndServe (addr : string) (cfg : Config) (log : list (LogLine error)).

(** How the process ends: its exit status and the lines [main] logged. *)
Record Exit : Type := {
  exitStatus : Z;
  mainLog : list (LogLine error)
}.

(** The end of [main], given what [http.ListenAndServe] returned if it
    was called.  The call serves requests until it returns; when it
    returns an error (it does at once when the address cannot be
    listened on) [main] ends in [log.Fatalf]. *)
Definition finish (s : Startup) (listenErr : option error) : Exit :=
  match s with
  | Fatal log => {| exitStatus := 1; mainLog := log |}
  | ListenAndServe addr cfg log =>
      match listenErr with
      | Some err =>
          {| exitStatus := 1;
             mainLog := log ++ [Printf "Failed to start server: %v" [Err err]] |}
      | None => {| exitStatus := 0; mainLog := log |}
      end
  end.

Section Startup.
(** [url.Parse] of the standard library and its [*url.URL] results.  The
    reverse proxy built from each URL is what [ProxyTo] stands for. *)
Context {URL : Type} (url_Parse : string -> error + URL).

(** The three upstream URL texts [main] parses. *)
Definition upstreamURLs (env : Environ) : list string :=
  [getEnv env "MONOLITH_URL" "http://localhost:8080";
   getEnv env "MOVIES_SERVICE_URL" "http://localhost:8081";
   getEnv env "EVENTS_SERVICE_URL" "http://localhost:8082"].

Definition wellFormed (rawURL : string) : Prop :=
  exists u, url_Parse rawURL = inr u.
Definition malformed (rawURL : string) : Prop :=
  exists err, url_Parse rawURL = inl err.

(** The percentage [main] stores: the value of [strconv.Atoi], or 0 when
    it reports an error. *)
Definition percentOf (env : Environ) : Z :=
  match Atoi (getEnv env "MOVIES_MIGRATION_PERCENT" "0") with
  | inl _ => 0
  | inr n => n
  end.

(** [main], from the environment to the call of [http.ListenAndServe];
    [finish] gives its end.  ([rand.Seed] leaves the random source in a state that depends on the
    clock: the handlers are stated for every state of the source.) *)
Definition main (env : Environ) : Startup :=
  let port := getEnv env "PORT" "8000" in
  let monolithURL := getEnv env "MONOLITH_URL" "http://localhost:8080" in
  let moviesServiceURL :=
    getEnv env "MOVIES_SERVICE_URL" "http://localhost:8081" in
  let eventsServiceURL :=
    getEnv env "EVENTS_SERVICE_URL" "http://localhost:8082" in
  let gradualMigrationEnabled :=
    String.eqb (getEnv env "GRADUAL_MIGRATION" "false") "true" in
  let migrationPercentStr := getEnv env "MOVIES_MIGRATION_PERCENT" "0" in
  let (migrationPercent, log0) :=
    match Atoi migrationPercentStr with
    | inl err =>
        (0, [Printf "Invalid MOVIES_MIGRATION_PERCENT value, defaulting to 0. Error: %v" [Err err]])
    | inr n => (n, [])
    end in
  match url_Parse monolithURL with
  | inl err => Fatal (log0 ++ [Printf "Failed to parse MONOLITH_URL: %v" [Err err]])
  | inr monoURL =>
  match url_Parse moviesServiceURL with
  | inl err => Fatal (log0 ++ [Printf "Failed to parse MOVIES_SERVICE_URL: %v" [Err err]])
  | inr movURL =>
  match url_Parse eventsServiceURL with
  | inl err => Fatal (log0 ++ [Printf "Failed to parse EVENTS_SERVICE_URL: %v" [Err err]])
  | inr evtURL =>
      ListenAndServe (":" +:+ port)
        {| port := port;
           monolithURL := monolithURL;
           moviesServiceURL := moviesServiceURL;
           eventsServiceURL := eventsServiceURL;
           gradualMigrationEnabled := gradualMigrationEnabled;
           migrationPercent := migrationPercent |}
        (log0 ++
         [Printf "Strangler Fig Proxy started on port %s" [Str port];
          Printf "Monolith URL: %s" [Str monolithURL];
          Printf "Movies Service URL: %s" [Str moviesServiceURL];
          Printf "Gradual migration enabled: %v" [Bool gradualMigrationEnabled];
          Printf "Movies migration percentage: %d%%" [Int migrationPercent]])
  end end end.

End Startup.

(** *** Reference instances, used to run the model on concrete inputs *)

(** A linear congruential generator as random source. *)
Definition lcgIntn (n : Z) (g : Z) : Z * Z :=
  (g mod n, (g * 1103515245 + 12345) mod 2147483648).

Lemma lcgIntn_range (n g : Z) : 0 < n -> 0 <= fst (lcgIntn n g) < n.
Proof. intros Hn. apply Z.mod_pos_bound. exact Hn. Qed.

#[export] Instance lcg : RandSource Z :=
  {| Intn := lcgIntn; Intn_range := lcgIntn_range |}.

(** A URL parser that, like [url.Parse], refuses ASCII control characters
    (and accepts every other text). *)
Fixpoint hasCTL (s : string) : bool :=
  match s with
  | EmptyString => false
  | String ch s' =>
      let n := Z.of_N (N_of_ascii ch) in
      (n <? 32) || (n =? 127) || hasCTL s'
  end.

Definition parseURL (rawURL : string) : error + string :=
  if hasCTL rawURL
  then inl (ErrorString "net/url: invalid control character in URL")
  else inr rawURL.

(** Concrete inputs. *)

Definition cfgOf (enabled : bool) (percent : Z) : Config :=
  {| port := "8000";
     monolithURL := "http://localhost:8080";
     moviesServiceURL := "http://localhost:8081";
     eventsServiceURL := "http://localhost:8082";
     gradualMigrationEnabled := enabled;
     migrationPercent := percent |}.

Definition world0 : World Z := {| rng := 20260; logged := [] |}.
Definition getMovies : Request := {| Method := "GET"; Path := "/api/movies/42" |}.
Definition getHealth : Request := {| Method := "GET"; Path := "/health" |}.
Definition getUsers : Request := {| Method := "GET"; Path := "/api/users" |}.

(** Requests whose paths are not canonical. *)
Definition getMoviesDoubleSlash : Request :=
  {| Method := "GET"; Path := "/api/movies//1" |}.
Definition getMoviesDotDot : Request :=
  {| Method := "GET"; Path := "/api/movies/../health" |}.
Definition getMoviesDot : Request :=
  {| Method := "GET"; Path := "/api/movies/./list" |}.
Definition getEventsDoubleSlash : Request :=
  {| Method := "GET"; Path := "//api/events" |}.

Definition envBadPercent : Environ :=
  <["GRADUAL_MIGRATION" := "true"]> (<["MOVIES_MIGRATION_PERCENT" := "fifty"]> ∅).
Definition envPercent250 : Environ :=
  <["GRADUAL_MIGRATION" := "true"]> (<["MOVIES_MIGRATION_PERCENT" := "250"]> ∅).

(** *** What the log of the proxy holds *)

(** The line [main] logs when [strconv.Atoi] refuses the percentage. *)
Definition percentWarning (env : Environ) : list (LogLine error) :=
  match Atoi (getEnv env "MOVIES_MIGRATION_PERCENT" "0") with
  | inl err =>
      [Printf "Invalid MOVIES_MIGRATION_PERCENT value, defaulting to 0. Error: %v" [Err err]]
  | inr _ => []
  end.

(** The line each branch of the routing switch logs before it forwards a
    request of path [path] to origin [o]. *)
Definition routeLog (path : string) (o : Origin) : LogLine error :=
  match o with
  | MoviesService => Printf "Routing to movies-service (migration)" []
  | EventsService => Printf "Routing to events-service" []
  | Monolith =>
      if HasPrefix path "/api/movies"
      then Printf "Routing to monolith" []
      else Printf "Routing to monolith (default)" []
  end.

Definition incomingLog (r : Request) : LogLine error :=
  Printf "Incoming request: %s %s" [Str (Method r); Str (Path r)].

(** More concrete inputs. *)

Definition postMovies : Request := {| Method := "POST"; Path := "/api/movies" |}.
Definition getEventsFeed : Request := {| Method := "GET"; Path := "/api/eventsource" |}.

(** GRADUAL_MIGRATION spelled in capitals, with percentage 100. *)
Definition envUpperTrue : Environ :=
  <["GRADUAL_MIGRATION" := "TRUE"]> (<["MOVIES_MIGRATION_PERCENT" := "100"]> ∅).

(** A movies-service URL that holds a line feed. *)
Definition envBadMoviesURL : Environ :=
  <["MOVIES_SERVICE_URL" := "http://movies" +:+ nl]>
    (<["EVENTS_SERVICE_URL" := "http://events" +:+ nl]> ∅).

End Proxy.

(** ** The events service *)

Module Events.

(** An [error] is held by the text its [Error()] method returns. *)
Record error : Type := { Error : string }.

(** [time.Time]: an instant with nanosecond precision and the offset of
    its zone.  [float64] is IEEE 754 binary64 data; the service performs no
    arithmetic on it. *)
Record Time : Type := { unixSec : Z; nsec : Z; zoneOffset : Z }.
Definition float64 : Type := SpecFloat.spec_float.

Module MovieEvent.
Record t : Type := {
  MovieID : Z;
  Title : string;
  Action : string;
  UserID : Z
}.
End MovieEvent.

Module UserEvent.
Record t : Type := {
  UserID : Z;
  Username : string;
  Action : string;
  Timestamp : Time
}.
End UserEvent.

Module PaymentEvent.
Record t : Type := {
  PaymentID : Z;
  UserID : Z;
  Amount : float64;
  Status : string;
  Timestamp : Time
}.
End PaymentEvent.

(** The zero values [&MovieEvent{}], [&UserEvent{}], [&PaymentEvent{}]. *)
Definition zeroTime : Time := {| unixSec := -62135596800; nsec := 0; zoneOffset := 0 |}.
Definition zeroMovieEvent : MovieEvent.t :=
  {| MovieEvent.MovieID := 0; MovieEvent.Title := "";
     MovieEvent.Action := ""; MovieEvent.UserID := 0 |}.
Definition zeroUserEvent : UserEvent.t :=
  {| UserEvent.UserID := 0; UserEvent.Username := "";
     UserEvent.Action := ""; UserEvent.Timestamp := zeroTime |}.
Definition zeroPaymentEvent : PaymentEvent.t :=
  {| PaymentEvent.PaymentID := 0; PaymentEvent.UserID := 0;
     PaymentEvent.Amount := SpecFloat.S754_zero false;
     PaymentEvent.Status := ""; PaymentEvent.Timestamp := zeroTime |}.

(** [var eventData interface{}]: a pointer to one of the three structs. *)
Inductive EventData : Type :=
| PtrMovieEvent (v : MovieEvent.t)
| PtrUserEvent (v : UserEvent.t)
| PtrPaymentEvent (v : PaymentEvent.t).

Definition movieTopic : string := "movie-events".
Definition userTopic : string := "user-events".
Definition paymentTopic : string := "payment-events".

(** [kafka.Message]; the producer sets [Topic] and [Value] only. *)
Record Message : Type := {
  Topic : string;
  Offset : Z;
  Key : string;
  Value : string
}.

Definition produced (topic : string) (value : string) : Message :=
  {| Topic := topic; Offset := 0; Key := ""; Value := value |}.

(** [io.EOF]. *)
Definition EOF : error := {| Error := "EOF" |}.

(** [encoding/json], as the handler uses it on [eventData]:
    [Decode body target] is [json.NewDecoder(body).Decode(target)] and
    yields the updated target or an error; on a body without any byte the
    error is [io.EOF]. *)
Class JSON : Type := {
  Decode : string -> EventData -> error + EventData;
  Marshal : EventData -> error + string;
  Decode_EOF : forall target, Decode EmptyString target = inl EOF
}.

(** [*kafka.Writer]: [WriteMessages] returns [nil] or an error and leaves
    the client in a new state. *)
Class KafkaWriter (W : Type) : Type := {
  WriteMessages : Message -> W -> option error * W
}.

(** What a handler or a consumer does to the outside, in order. *)
Inductive Effect : Type :=
| Logged (line : LogLine error)
| DecodedBody (body : string)
| WriteAttempt (msg : Message) (result : option error).

Record World (W : Type) : Type := {
  writer : W;
  trace : list Effect
}.
Arguments writer {W} _.
Arguments trace {W} _.

Record Request : Type := {
  Method : string;
  Path : string;
  Body : string
}.

(** A response: the status, the entries the handler puts in [w.Header()],
    and the bytes written. *)
Record Response : Type := {
  StatusCode : Z;
  Header : gmap string string;
  ResponseBody : string
}.

(** [http.RedirectHandler(url, code)], with which the mux answers a
    request whose path is not canonical, [url] being the canonical path.
    The status is a redirection (301 Moved Permanently, or 307 Temporary
    Redirect in later releases of Go); the status, the headers and the
    bytes written are those [net/http] chooses for the request. *)
Class Redirection : Type := {
  RedirectHandler : string -> Request -> Response;
  RedirectHandler_status :
    forall url r, 300 <= StatusCode (RedirectHandler url r) < 400
}.

Definition MethodPost : string := "POST".
Definition StatusOK : Z := 200.
Definition StatusCreated : Z := 201.
Definition StatusBadRequest : Z := 400.
Definition StatusNotFound : Z := 404.
Definition StatusMethodNotAllowed : Z := 405.
Definition StatusInternalServerError : Z := 500.

(** [http.Error(w, error, code)]: plain text, the status, the text and a
    line feed. *)
Definition http_Error (text : string) (code : Z) : Response :=
  {| StatusCode := code;
     Header := <["X-Content-Type-Options" := "nosniff"]>
               {["Content-Type" := "text/plain; charset=utf-8"]};
     ResponseBody := text +:+ nl |}.

(** The bytes [json.NewEncoder(w).Encode] writes for the two literal maps
    of the program: the object and a line feed. *)
Definition statusSuccessJSON : string :=
  "{" +:+ dq +:+ "status" +:+ dq +:+ ":" +:+ dq +:+ "success" +:+ dq +:+ "}" +:+ nl.
Definition statusTrueJSON : string :=
  "{" +:+ dq +:+ "status" +:+ dq +:+ ":true}" +:+ nl.

(** The [switch topic] of [handleEvent]. *)
Definition newEventData (topic : string) : option EventData :=
  if String.eqb topic movieTopic then Some (PtrMovieEvent zeroMovieEvent)
  else if String.eqb topic userTopic then Some (PtrUserEvent zeroUserEvent)
  else if String.eqb topic paymentTopic then Some (PtrPaymentEvent zeroPaymentEvent)
  else None.

Section Service.
Context {W : Type} `{JSON} `{KafkaWriter W} `{Redirection}.

Definition log_Printf (format : string) (args : list (Arg error))
  : M (World W) unit :=
  fun w => (tt, {| writer := writer w;
                   trace := trace w ++ [Logged (Printf format args)] |}).

Definition json_Decode (body : string) (target : EventData)
  : M (World W) (error + EventData) :=
  fun w => (Decode body target,
            {| writer := writer w; trace := trace w ++ [DecodedBody body] |}).

Definition writer_WriteMessages (msg : Message) : M (World W) (option error) :=
  fun w => let (err, k) := WriteMessages msg (writer w) in
           (err, {| writer := k; trace := trace w ++ [WriteAttempt msg err] |}).

Definition handleEvent (topic : string) (r : Request) : M (World W) Response :=
  if negb (String.eqb (Method r) MethodPost) then
    ret (http_Error "Method not allowed" StatusMethodNotAllowed)
  else
    match newEventData topic with
    | None => ret (http_Error "Unknown event type" StatusBadRequest)
    | Some target =>
        let* decoded := json_Decode (Body r) target in
        match decoded with
        | inl err => ret (http_Error (Error err) StatusBadRequest)
        | inr eventData =>
            match Marshal eventData with
            | inl err => ret (http_Error (Error err) StatusInternalServerError)
            | inr eventBytes =>
                let* err := writer_WriteMessages (produced topic eventBytes) in
                match err with
                | Some err =>
                    log_Printf "Failed to write message to Kafka: %v" [Err err] >>
                    ret (http_Error "Failed to write message to Kafka"
                                    StatusInternalServerError)
                | None =>
                    log_Printf "Successfully produced message to topic %s: %s"
                               [Str topic; Str eventBytes] >>
                    ret {| StatusCode := StatusCreated;
                           Header := {["Content-Type" := "application/json"]};
                           ResponseBody := statusSuccessJSON |}
                end
            end
        end
    end.

Definition handleHealth (r : Request) : M (World W) Response :=
  ret {| StatusCode := StatusOK; Header := ∅; ResponseBody := statusTrueJSON |}.

(** The event endpoints registered by [main], with their topics. *)
Definition eventEndpoints : list (string * string) :=
  [("/api/events/movie", movieTopic);
   ("/api/events/user", userTopic);
   ("/api/events/payment", paymentTopic)].

(** [http.NotFound], the answer of the mux when no pattern matches. *)
Definition notFound (r : Request) : M (World W) Response :=
  ret (http_Error "404 page not found" StatusNotFound).

(** The handler the mux finds for a path, with the four patterns of
    [main]; none of them ends in a slash, so each matches its own path
    only. *)
Definition handler (r : Request) : M (World W) Response :=
  if String.eqb (Path r) "/api/events/movie" then handleEvent movieTopic r
  else if String.eqb (Path r) "/api/events/user" then handleEvent userTopic r
  else if String.eqb (Path r) "/api/events/payment" then handleEvent paymentTopic r
  else if String.eqb (Path r) "/api/events/health" then handleHealth r
  else notFound r.

(** The default [http.ServeMux] serving one request: a request whose
    path is not canonical (and whose method is not CONNECT) is
    redirected to the canonical path, and no handler runs. *)
Definition serve (r : Request) : M (World W) Response :=
  if canonical (Method r) (Path r) then handler r
  else ret (RedirectHandler (cleanPath (Path r)) r).

(** The messages a handler asked the broker client to write, and those
    whose write succeeded. *)
Definition writeAttempts (tr : list Effect) : list Message :=
  omap (fun e => match e with WriteAttempt m _ => Some m | _ => None end) tr.

Definition published (tr : list Effect) : list Message :=
  omap (fun e => match e with WriteAttempt m None => Some m | _ => None end) tr.

Definition decodes (tr : list Effect) : list string :=
  omap (fun e => match e with DecodedBody b => Some b | _ => None end) tr.

(** Decoding [bytes] into the structure of the kind of [topic], as the
    handler decodes a request body (and as a reader of the topic decodes
    the value of a message). *)
Definition decodeAs (topic : string) (bytes : string) : error + EventData :=
  match newEventData topic with
  | Some target => Decode bytes target
  | None => inl {| Error := "Unknown event type" |}
  end.

(** The decoder refuses [body] for the kind of [topic]. *)
Definition Refused (topic : string) (body : string) : Prop :=
  exists err, decodeAs topic body = inl err.

(** Decoding what was marshalled from a decoded structure gives that
    structure back. *)
Definition StableReencoding : Prop :=
  forall topic body eventData eventBytes,
    decodeAs topic body = inr eventData ->
    Marshal eventData = inr eventBytes ->
    decodeAs topic eventBytes = inr eventData.

(** [w] after the effects [es]. *)
Definition after (w : World W) (k : W) (es : list Effect) : World W :=
  {| writer := k; trace := trace w ++ es |}.

End Service.

(** *** The process: [main], its goroutines and the HTTP server

    [main] starts one [consume] goroutine per topic, registers the
    handlers and blocks in [http.ListenAndServe].  The process is a
    transition system: each label is one move of [main], of one consumer
    goroutine or of the server, and the scheduler and the environment pick
    the next label. *)

Definition getEnv (env : Environ) (key fallback : string) : string :=
  match env !! key with
  | Some value => value
  | None => fallback
  end.

Definition topics : list string := [movieTopic; userTopic; paymentTopic].

(** Where a [consume] goroutine is: created by [go] and not yet run,
    blocked in [r.ReadMessage] inside the [for] loop, or returned. *)
Inductive Consumer : Type := Spawned | Reading | Returned.

#[export] Instance Consumer_eq_dec : EqDecision Consumer.
Proof. solve_decision. Defined.

(** Where [main] is: in the [for range topics] loop with the topics still
    to start, blocked in [http.ListenAndServe], or blocked in [wg.Wait]. *)
Inductive MainPc : Type :=
| Spawning (rest : list string)
| Serving
| Waiting.

Record Proc (W : Type) : Type := {
  mainpc : MainPc;
  consumers : gmap string Consumer;
  wg : Z;                         (* the counter of the [sync.WaitGroup] *)
  exited : option Z;              (* the exit status, once the process ended *)
  answered : list (Request * Response);
  world : World W
}.
Arguments mainpc {W} _.
Arguments consumers {W} _.
Arguments wg {W} _.
Arguments exited {W} _.
Arguments answered {W} _.
Arguments world {W} _.

Inductive Label : Type :=
| MainRuns                                   (* [main] runs up to its next call *)
| ListenAndServeReturns (err : option error)
| WaitReturns
| ConsumerRuns (topic : string)              (* a new goroutine reaches its loop *)
| ReadMessageReturns (topic : string) (res : error + Message)
| Request_ (r : Request).                    (* the server serves one request *)

Section Process.
Context {W : Type} `{JSON} `{KafkaWriter W} `{Redirection}.
Variable env : Environ.

Definition logging (p : Proc W) (line : LogLine error) : World W :=
  snd (log_Printf (format line) (args line) (world p)).

(** One iteration of the [for] loop of [consume] on the result of
    [r.ReadMessage]: the line it logs, and whether it [break]s. *)
Definition consumeIteration (topic : string) (res : error + Message)
  : LogLine error * bool :=
  match res with
  | inl err =>
      (Printf "Error reading message from topic %s: %v" [Str topic; Err err],
       true)
  | inr m =>
      (Printf "[CONSUMER] Received message from topic %s at offset %d: %s = %s\n"
              [Str (Topic m); Int (Offset m); Str (Key m); Str (Value m)],
       false)
  end.

(** [wg.Done()]: the counter decreases; a negative counter is a panic,
    which ends the process with status 2. *)
Definition wg_Done (p : Proc W) : Z * option Z :=
  let n := wg p - 1 in
  if n <? 0 then (n, Some 2) else (n, None).

Definition step (l : Label) (p : Proc W) : option (Proc W) :=
  match exited p with
  | Some _ => None
  | None =>
    match l, mainpc p with
    | MainRuns, Spawning (topic :: rest) =>
        (* wg.Add(1); go consume(context.Background(), topic, &wg) *)
        Some {| mainpc := Spawning rest;
                consumers := <[topic := Spawned]> (consumers p);
                wg := wg p + 1;
                exited := None;
                answered := answered p;
                world := world p |}
    | MainRuns, Spawning [] =>
        (* the four http.HandleFunc calls, the two log lines, and the
           call of http.ListenAndServe *)
        let port := getEnv env "PORT" "8082" in
        let kafkaBrokers := getEnv env "KAFKA_BROKERS" "localhost:9092" in
        Some {| mainpc := Serving;
                consumers := consumers p;
                wg := wg p;
                exited := None;
                answered := answered p;
                world :=
                  snd ((log_Printf "Events service starting on port %s" [Str port] >>
                        log_Printf "Connecting to Kafka brokers at %s" [Str kafkaBrokers])
                         (world p)) |}
    | ListenAndServeReturns (Some err), Serving =>
        (* log.Fatalf: the line is logged and os.Exit(1) ends the process *)
        Some {| mainpc := Serving;
                consumers := consumers p;
                wg := wg p;
                exited := Some 1;
                answered := answered p;
                world := logging p (Printf "Failed to start server: %v" [Err err]) |}
    | ListenAndServeReturns None, Serving =>
        Some {| mainpc := Waiting;
                consumers := consumers p;
                wg := wg p;
                exited := None;
                answered := answered p;
                world := world p |}
    | WaitReturns, Waiting =>
        (* wg.Wait() returns once the counter is zero; main returns, the
           deferred writer.Close() runs and the process ends *)
        if wg p =? 0 then
          Some {| mainpc := Waiting;
                  consumers := consumers p;
                  wg := wg p;
                  exited := Some 0;
                  answered := answered p;
                  world := world p |}
        else None
    | ConsumerRuns topic, _ =>
        match consumers p !! topic with
        | Some Spawned =>
            Some {| mainpc := mainpc p;
                    consumers := <[topic := Reading]> (consumers p);
                    wg := wg p;
                    exited := None;
                    answered := answered p;
                    world := logging p (Printf "Consumer started for topic %s" [Str topic]) |}
        | _ => None
        end
    | ReadMessageReturns topic res, _ =>
        match consumers p !! topic with
        | Some Reading =>
            let (line, break) := consumeIteration topic res in
            if break then
              (* the loop ends, consume returns: r.Close(), wg.Done() *)
              let (n, panic) := wg_Done p in
              Some {| mainpc := mainpc p;
                      consumers := <[topic := Returned]> (consumers p);
                      wg := n;
                      exited := panic;
                      answered := answered p;
                      world := logging p line |}
            else
              Some {| mainpc := mainpc p;
                      consumers := consumers p;
                      wg := wg p;
                      exited := None;
                      answered := answered p;
                      world := logging p line |}
        | _ => None
        end
    | Request_ r, Serving =>
        let (resp, w) := serve r (world p) in
        Some {| mainpc := Serving;
                consumers := consumers p;
                wg := wg p;
                exited := None;
                answered := answered p ++ [(r, resp)];
                world := w |}
    | _, _ => None
    end
  end.

(** The process when [main] enters its [for range topics] loop, with the
    broker client [k] just built. *)
Definition start (k : W) : Proc W :=
  {| mainpc := Spawning topics;
     consumers := ∅;
     wg := 0;
     exited := None;
     answered := [];
     world := {| writer := k; trace := [] |} |}.

Fixpoint run (ls : list Label) (p : Proc W) : option (Proc W) :=
  match ls with
  | [] => Some p
  | l :: ls' =>
      match step l p with
      | Some p' => run ls' p'
      | None => None
      end
  end.

Definition reachable (k : W) (p : Proc W) : Prop :=
  exists ls, run ls (start k) = Some p.

(** [main] starts the three goroutines and calls [http.ListenAndServe];
    each goroutine reaches its loop. *)
Definition startup : list Label :=
  [MainRuns; MainRuns; MainRuns; MainRuns;
   ConsumerRuns movieTopic; ConsumerRuns userTopic; ConsumerRuns paymentTopic].

(** The process after [startup], and after [log.Fatalf] on the error of
    [http.ListenAndServe]. *)
Definition serving (k : W) : Proc W :=
  {| mainpc := Serving;
     consumers := <[paymentTopic := Reading]>
                  (<[userTopic := Reading]> (<[movieTopic := Reading]> ∅));
     wg := 3;
     exited := None;
     answered := [];
     world :=
       {| writer := k;
          trace :=
            [Logged (Printf "Events service starting on port %s"
                            [Str (getEnv env "PORT" "8082")]);
             Logged (Printf "Connecting to Kafka brokers at %s"
                            [Str (getEnv env "KAFKA_BROKERS" "localhost:9092")]);
             Logged (Printf "Consumer started for topic %s" [Str movieTopic]);
             Logged (Printf "Consumer started for topic %s" [Str userTopic]);
             Logged (Printf "Consumer started for topic %s" [Str paymentTopic])] |} |}.

Definition fatal (k : W) (err : error) : Proc W :=
  {| mainpc := Serving;
     consumers := consumers (serving k);
     wg := 3;
     exited := Some 1;
     answered := [];
     world := logging (serving k) (Printf "Failed to start server: %v" [Err err]) |}.

End Process.

(** What a consumer goroutine contributes to the WaitGroup: one as long
    as it has not returned. *)
Definition weight (c : option Consumer) : Z :=
  match c with
  | Some Spawned | Some Reading => 1
  | Some Returned | None => 0
  end.

Definition pending (cs : gmap string Consumer) : Z :=
  foldr (fun t n => weight (cs !! t) + n) 0 topics.

(** The invariant of the process: the WaitGroup counts the consumers that
    have not returned, only the three topics have a consumer, and the
    topics [main] has still to start have none. *)
Definition invariant {W : Type} (p : Proc W) : Prop :=
  wg p = pending (consumers p) /\
  (forall t, consumers p !! t <> None -> In t topics) /\
  match mainpc p with
  | Spawning rest =>
      (exists started, topics = started ++ rest) /\
      (forall t, In t rest -> consumers p !! t = None)
  | _ => True
  end.

(** A consumer only moves forward: absent, spawned, reading, returned. *)
Definition rank (c : option Consumer) : nat :=
  match c with
  | None => 0
  | Some Spawned => 1
  | Some Reading => 2
  | Some Returned => 3
  end.

(** *** The broker list *)

(** [strings.Split(s, sep)] for a separator of one byte: the pieces of [s]
    between the separators, in order; a text without separator (the empty
    text too) is its own single piece. *)
Fixpoint Split (s : string) (sep : ascii) : list string :=
  match s with
  | EmptyString => [EmptyString]
  | String c s' =>
      if Ascii.eqb c sep then EmptyString :: Split s' sep
      else
        match Split s' sep with
        | piece :: pieces => String c piece :: pieces
        | [] => [String c EmptyString]
        end
  end.

(** [strings.Join(elems, sep)] and [strings.Count(s, sep)], for a
    separator of one byte. *)
Fixpoint Join (elems : list string) (sep : ascii) : string :=
  match elems with
  | [] => EmptyString
  | [elem] => elem
  | elem :: elems' => String.append elem (String sep (Join elems' sep))
  end.

Fixpoint Count (s : string) (sep : ascii) : nat :=
  match s with
  | EmptyString => O
  | String c s' => if Ascii.eqb c sep then S (Count s' sep) else Count s' sep
  end.

(** [brokers] in [main] and in [consume]: the value of KAFKA_BROKERS cut
    at the commas. *)
Definition brokers (env : Environ) : list string :=
  let kafkaBrokers := getEnv env "KAFKA_BROKERS" "localhost:9092" in
  Split kafkaBrokers ",".

(** *** More on the process *)

(** The effect of one iteration of the loop of [consume] on a message. *)
Definition receivedLine (m : Message) : Effect :=
  Logged (Printf "[CONSUMER] Received message from topic %s at offset %d: %s = %s\n"
                 [Str (Topic m); Int (Offset m); Str (Key m); Str (Value m)]).

(** [r.ReadMessage] returns the messages [ms], one after the other, in the
    consumer of [topic]. *)
Definition receive (topic : string) (ms : list Message) : list Label :=
  map (fun m => ReadMessageReturns topic (inr m)) ms.

(** How the process can have ended: with status 1 out of
    [http.ListenAndServe], or with status 0 out of [wg.Wait] with the
    counter at zero. *)
Definition exitsOK {W : Type} (p : Proc W) : Prop :=
  match exited p with
  | None => True
  | Some code =>
      (code = 1 /\ mainpc p = Serving) \/
      (code = 0 /\ mainpc p = Waiting /\ wg p = 0)
  end.

(** A topic without consumer is a topic [main] has still to start. *)
Definition allStarted {W : Type} (p : Proc W) : Prop :=
  forall t, In t topics -> consumers p !! t = None ->
  exists rest, mainpc p = Spawning rest /\ In t rest.

End Events.

(** ** Reference instances of the events service

    Instances of [JSON] and [KafkaWriter] on which the model runs: a JSON
    codec for the movie kind, and a broker held in memory.

    The codec covers a part of what [encoding/json] accepts: one object,
    the four members of [MovieEvent] under their exact names in any order,
    integers in canonical decimal notation, strings of printable ASCII
    without escapes.  It reports an error on everything else, and on the
    user and payment kinds (whose [time.Time] and [float64] members it
    does not read). *)

Module Reference.
Import Events.

Definition dquote : ascii := ascii_of_nat 34.

Definition code (c : ascii) : Z := Z.of_N (N_of_ascii c).

Definition isSpace (c : ascii) : bool :=
  (code c =? 32) || (code c =? 9) || (code c =? 10) || (code c =? 13).

(** The bytes [json.Marshal] writes as they are inside a string. *)
Definition plain (c : ascii) : bool :=
  (32 <=? code c) && (code c <=? 126) &&
  negb ((code c =? 34) || (code c =? 92) ||
        (code c =? 60) || (code c =? 62) || (code c =? 38)).

Definition numeric (c : ascii) : bool :=
  ((48 <=? code c) && (code c <=? 57)) || (code c =? 45).

Fixpoint all (f : ascii -> bool) (s : string) : bool :=
  match s with
  | EmptyString => true
  | String c s' => f c && all f s'
  end.

Definition inRange (n : Z) : bool :=
  (- 2 ^ 63 <=? n) && (n <=? 2 ^ 63 - 1).

Definition itoa (n : Z) : string :=
  DecimalString.NilZero.string_of_int (Z.to_int n).

(** A number in canonical notation (no sign but a minus, no leading
    zero) and within [int]. *)
Definition number (digits : string) : option Z :=
  match DecimalString.NilZero.int_of_string digits with
  | Some d =>
      let n := Z.of_int d in
      if String.eqb (itoa n) digits && inRange n then Some n else None
  | None => None
  end.

Inductive Field : Type := FMovieID | FTitle | FAction | FUserID.

Definition fieldOf (key : string) : option Field :=
  if String.eqb key "movie_id" then Some FMovieID
  else if String.eqb key "title" then Some FTitle
  else if String.eqb key "action" then Some FAction
  else if String.eqb key "user_id" then Some FUserID
  else None.

Definition isInt (f : Field) : bool :=
  match f with FMovieID | FUserID => true | FTitle | FAction => false end.

Definition setInt (f : Field) (n : Z) (v : MovieEvent.t) : MovieEvent.t :=
  match f with
  | FMovieID =>
      {| MovieEvent.MovieID := n; MovieEvent.Title := MovieEvent.Title v;
         MovieEvent.Action := MovieEvent.Action v;
         MovieEvent.UserID := MovieEvent.UserID v |}
  | FUserID =>
      {| MovieEvent.MovieID := MovieEvent.MovieID v;
         MovieEvent.Title := MovieEvent.Title v;
         MovieEvent.Action := MovieEvent.Action v; MovieEvent.UserID := n |}
  | _ => v
  end.

Definition setText (f : Field) (s : string) (v : MovieEvent.t) : MovieEvent.t :=
  match f with
  | FTitle =>
      {| MovieEvent.MovieID := MovieEvent.MovieID v; MovieEvent.Title := s;
         MovieEvent.Action := MovieEvent.Action v;
         MovieEvent.UserID := MovieEvent.UserID v |}
  | FAction =>
      {| MovieEvent.MovieID := MovieEvent.MovieID v;
         MovieEvent.Title := MovieEvent.Title v;
         MovieEvent.Action := s; MovieEvent.UserID := MovieEvent.UserID v |}
  | _ => v
  end.

(** Where the scanner is in the object. *)
Inductive State : Type :=
| Start                                   (* before the opening brace *)
| Member (first : bool)                   (* before a key *)
| InKey (key : string)                    (* inside a key *)
| Colon (f : Field)                       (* between a key and its colon *)
| ValueOf (f : Field)                     (* before the value of a member *)
| InText (f : Field) (text : string)      (* inside a string value *)
| InNumber (f : Field) (digits : string)  (* inside a number *)
| Next                                    (* after a value *)
| End.                                    (* after the closing brace *)

(** After a value: white space, a comma or the closing brace. *)
Definition afterValue (c : ascii) : option State :=
  if isSpace c then Some Next
  else if Ascii.eqb c "," then Some (Member false)
  else if Ascii.eqb c "}" then Some End
  else None.

Definition snoc (s : string) (c : ascii) : string :=
  String.append s (String c EmptyString).

Definition errUnexpectedEOF : error := {| Error := "unexpected EOF" |}.
Definition errSyntax : error := {| Error := "invalid character in JSON input" |}.
Definition errType : error :=
  {| Error := "json: cannot unmarshal value into Go struct field of MovieEvent" |}.
Definition errUnsupported : error :=
  {| Error := "json: input outside the reference codec" |}.

Fixpoint scan (st : State) (v : MovieEvent.t) (s : string)
  : error + MovieEvent.t :=
  match s with
  | EmptyString =>
      match st with
      | End => inr v
      | Start => inl EOF
      | _ => inl errUnexpectedEOF
      end
  | String c s' =>
      match st with
      | Start =>
          if isSpace c then scan Start v s'
          else if Ascii.eqb c "{" then scan (Member true) v s'
          else inl errUnsupported
      | Member first =>
          if isSpace c then scan (Member first) v s'
          else if Ascii.eqb c dquote then scan (InKey EmptyString) v s'
          else if first && Ascii.eqb c "}" then scan End v s'
          else inl errSyntax
      | InKey key =>
          if plain c then scan (InKey (snoc key c)) v s'
          else if Ascii.eqb c dquote then
            match fieldOf key with
            | Some f => scan (Colon f) v s'
            | None => inl errUnsupported
            end
          else inl errUnsupported
      | Colon f =>
          if isSpace c then scan (Colon f) v s'
          else if Ascii.eqb c ":" then scan (ValueOf f) v s'
          else inl errSyntax
      | ValueOf f =>
          if numeric c then
            if isInt f then scan (InNumber f (String c EmptyString)) v s'
            else inl errType
          else if Ascii.eqb c dquote then
            if isInt f then inl errType
            else scan (InText f EmptyString) v s'
          else if isSpace c then scan (ValueOf f) v s'
          else inl errUnsupported
      | InText f text =>
          if plain c then scan (InText f (snoc text c)) v s'
          else if Ascii.eqb c dquote then scan Next (setText f text v) s'
          else inl errUnsupported
      | InNumber f digits =>
          if numeric c then scan (InNumber f (snoc digits c)) v s'
          else
            match number digits, afterValue c with
            | Some n, Some st' => scan st' (setInt f n v) s'
            | None, _ => inl errType
            | _, None => inl errSyntax
            end
      | Next =>
          match afterValue c with
          | Some st' => scan st' v s'
          | None => inl errSyntax
          end
      | End =>
          if isSpace c then scan End v s' else inl errUnsupported
      end
  end.

(** The printer: each piece is put in front of what follows it. *)
Definition jsonKey (key rest : string) : string :=
  String dquote (String.append key (String dquote (String ":" rest))).

Definition jsonText (s rest : string) : string :=
  String dquote (String.append s (String dquote rest)).

Definition jsonInt (n : Z) (rest : string) : string :=
  String.append (itoa n) rest.

Definition marshalMovie (v : MovieEvent.t) : error + string :=
  if inRange (MovieEvent.MovieID v) && inRange (MovieEvent.UserID v) &&
     all plain (MovieEvent.Title v) && all plain (MovieEvent.Action v)
  then
    inr (String "{"
          (jsonKey "movie_id" (jsonInt (MovieEvent.MovieID v) (String ","
          (jsonKey "title" (jsonText (MovieEvent.Title v) (String ","
          (jsonKey "action" (jsonText (MovieEvent.Action v) (String ","
          (jsonKey "user_id" (jsonInt (MovieEvent.UserID v) "}"))))))))))))
  else inl errUnsupported.

Definition decode (body : string) (target : EventData) : error + EventData :=
  match target with
  | PtrMovieEvent v =>
      match scan Start v body with
      | inr v' => inr (PtrMovieEvent v')
      | inl err => inl err
      end
  | _ =>
      match body with
      | EmptyString => inl EOF
      | _ => inl errUnsupported
      end
  end.

Definition marshal (eventData : EventData) : error + string :=
  match eventData with
  | PtrMovieEvent v => marshalMovie v
  | _ => inl errUnsupported
  end.

Definition decode_EOF (target : EventData) : decode EmptyString target = inl EOF :=
  match target with
  | PtrMovieEvent _ => eq_refl
  | PtrUserEvent _ => eq_refl
  | PtrPaymentEvent _ => eq_refl
  end.

#[export] Instance json : JSON :=
  {| Decode := decode; Marshal := marshal; Decode_EOF := decode_EOF |}.

(** A broker in memory: each topic holds the values written to it, in
    order; when it is not available every write fails. *)
Record Broker : Type := {
  available : bool;
  stored : gmap string (list string)
}.

Definition errUnavailable : error := {| Error := "kafka: broker not available" |}.

#[export] Instance broker : KafkaWriter Broker := {|
  WriteMessages msg b :=
    if available b then
      (None,
       {| available := true;
          stored := <[Topic msg := default [] (stored b !! Topic msg) ++ [Value msg]]>
                      (stored b) |})
    else (Some errUnavailable, b)
|}.

(** A redirection with status 307 that names the canonical path in its
    Location header. *)
Definition redirect (url : string) (r : Request) : Response :=
  {| StatusCode := 307; Header := {["Location" := url]}; ResponseBody := "" |}.

Lemma redirect_status (url : string) (r : Request) :
  300 <= StatusCode (redirect url r) < 400.
Proof. simpl. lia. Qed.

#[export] Instance redirection : Redirection :=
  {| RedirectHandler := redirect; RedirectHandler_status := redirect_status |}.

(** The body of the request the specification gives as example: the object
    with movie_id 1, title X, action view and user_id 7, written without
    white space. *)
Definition viewBody : string :=
  "{" +:+ dq +:+ "movie_id" +:+ dq +:+ ":1," +:+ dq +:+ "title" +:+ dq +:+ ":" +:+
  dq +:+ "X" +:+ dq +:+ "," +:+ dq +:+ "action" +:+ dq +:+ ":" +:+ dq +:+ "view" +:+
  dq +:+ "," +:+ dq +:+ "user_id" +:+ dq +:+ ":7}".

Definition viewEvent : MovieEvent.t :=
  {| MovieEvent.MovieID := 1; MovieEvent.Title := "X";
     MovieEvent.Action := "view"; MovieEvent.UserID := 7 |}.

(** Bodies the decoder refuses for a movie event: the empty body, a text
    that is not JSON, a movie_id that is a string, an array. *)
Definition refusedBodies : list string :=
  [""; "{bad";
   "{" +:+ dq +:+ "movie_id" +:+ dq +:+ ":" +:+ dq +:+ "x" +:+ dq +:+ "}";
   "[1]"].

Definition postMovie (body : string) : Request :=
  {| Method := "POST"; Path := "/api/events/movie"; Body := body |}.

Definition brokerUp : World Broker :=
  {| writer := {| available := true; stored := ∅ |}; trace := [] |}.
Definition brokerDown : World Broker :=
  {| writer := {| available := false; stored := ∅ |}; trace := [] |}.

Definition movieEndpoint : In ("/api/events/movie", movieTopic) eventEndpoints :=
  or_introl eq_refl.

Definition getMovie : Request :=
  {| Method := "GET"; Path := "/api/events/movie"; Body := viewBody |}.

Definition brokerAfterView : Broker :=
  snd (WriteMessages (produced movieTopic viewBody) (writer brokerUp)).

Definition readFailure : error := {| Error := "fetching message: EOF" |}.

(** An error of [http.ListenAndServe]. *)
Definition listenFailure : error :=
  {| Error := "listen tcp :8082: bind: address already in use" |}.

(** A codec that decodes as the reference codec does and cannot marshal. *)
Definition jsonNoMarshal : JSON :=
  {| Decode := decode;
     Marshal := fun _ => inl errUnsupported;
     Decode_EOF := decode_EOF |}.

Definition postAudit : Request :=
  {| Method := "POST"; Path := "/api/events/audit"; Body := viewBody |}.
Definition getEventsHealth : Request :=
  {| Method := "DELETE"; Path := "/api/events/health"; Body := "" |}.
Definition postMovieSlash : Request :=
  {| Method := "POST"; Path := "/api/events/movie/"; Body := viewBody |}.
Definition postMovieDoubleSlash : Request :=
  {| Method := "POST"; Path := "/api/events//movie"; Body := viewBody |}.

Definition message (offset : Z) (value : string) : Message :=
  {| Topic := userTopic; Offset := offset; Key := ""; Value := value |}.

(** Startup, a read error in each loop, [http.ListenAndServe] returning
    without error, and [wg.Wait] returning. *)
Definition orderlyEnd : list Label :=
  startup ++
  [ReadMessageReturns movieTopic (inl readFailure);
   ReadMessageReturns userTopic (inl readFailure);
   ReadMessageReturns paymentTopic (inl readFailure);
   ListenAndServeReturns None;
   WaitReturns].

Definition envTwoBrokers : Environ :=
  <["KAFKA_BROKERS" := "kafka-0:9092,kafka-1:9092"]> ∅.

End Reference.

(** * Properties of the multiplexer *)

Module MuxSpec.

Lemma HasPrefix_nil (s : string) : HasPrefix s EmptyString = true.
Proof. destruct s; reflexivity. Qed.

(** The canonical path begins with a slash. *)
Lemma cleanPath_rooted (p : string) : HasPrefix (cleanPath p) "/" = true.
Proof.
  unfold cleanPath, path_Clean. destruct p as [|ch p]; [reflexivity|].
  cbv zeta. set (x := joinElements _). destruct (_ && _).
  - change (HasPrefix (String "/" (x +:+ "/")) "/" = true).
    cbn [HasPrefix]. rewrite HasPrefix_nil. reflexivity.
  - change (HasPrefix (String "/" x) "/" = true).
    cbn [HasPrefix]. rewrite HasPrefix_nil. reflexivity.
Qed.

(** A request whose path is canonical is handed to a handler, whatever
    its method. *)
Lemma canonical_clean (method path : string) :
  cleanPath path = path -> canonical method path = true.
Proof.
  intros Hc. unfold canonical. rewrite Hc, String.eqb_refl. apply orb_true_r.
Qed.

(** The path of a request handed to a handler begins with a slash, unless
    the method is CONNECT. *)
Lemma canonical_rooted (method path : string) :
  method <> "CONNECT" ->
  canonical method path = true ->
  HasPrefix path "/" = true.
Proof.
  intros Hm Hc. unfold canonical in Hc.
  destruct (String.eqb_spec method "CONNECT") as [|_]; [contradiction|].
  cbn [orb] in Hc. apply String.eqb_eq in Hc. rewrite <- Hc.
  apply cleanPath_rooted.
Qed.

End MuxSpec.

(** * Properties of the proxy *)

Module ProxySpec.
Import Proxy.

Section Routing.
Context {G : Type} `{RandSource G}.
Implicit Types (cfg : Config) (r : Request) (w : World G).

Lemma nextRoll_range w : 0 <= nextRoll w < 100.
Proof. unfold nextRoll. apply Intn_range. lia. Qed.

Lemma rootHandler_selected cfg r w :
  fst (rootHandler cfg r w) = ProxyTo (selected cfg (Path r) (nextRoll w)).
Proof.
  unfold rootHandler, selected, migrationRoll, rand_Intn, nextRoll, bind, ret.
  cbn [log_Printf rng logged fst snd].
  destruct (HasPrefix (Path r) "/api/movies").
  - destruct (gradualMigrationEnabled cfg); cbn [andb rng]; [|reflexivity].
    destruct (Intn 100 (rng w)) as [v g]; cbn [fst].
    destruct (v <? migrationPercent cfg); reflexivity.
  - destruct (HasPrefix (Path r) "/api/events"); reflexivity.
Qed.

(** A number is drawn from the source exactly when a movies request
    arrives while migration is enabled. *)
Lemma rootHandler_rng cfg r w :
  rng (snd (rootHandler cfg r w)) =
  if HasPrefix (Path r) "/api/movies" && gradualMigrationEnabled cfg
  then snd (Intn 100 (rng w)) else rng w.
Proof.
  unfold rootHandler, migrationRoll, rand_Intn, bind, ret.
  cbn [log_Printf rng logged fst snd].
  destruct (HasPrefix (Path r) "/api/movies"); cbn [andb].
  - destruct (gradualMigrationEnabled cfg); cbn [rng]; [|reflexivity].
    destruct (Intn 100 (rng w)) as [v g]; cbn [snd].
    destruct (v <? migrationPercent cfg); reflexivity.
  - destruct (HasPrefix (Path r) "/api/events"); reflexivity.
Qed.

Lemma prefix_rooted (path rest : string) :
  HasPrefix path (String "/" rest) = true -> HasPrefix path "/" = true.
Proof.
  destruct path as [|c path]; cbn [HasPrefix]; [intros; discriminate|].
  intros Hp. apply andb_prop in Hp as [-> _]. destruct path; reflexivity.
Qed.

Lemma serve_canonical cfg r w :
  canonical (Method r) (Path r) = true -> serve cfg r w = handler cfg r w.
Proof. intros Hc. unfold serve. rewrite Hc. reflexivity. Qed.

(** A request the mux redirects reaches no handler: nothing is logged and
    no number is drawn. *)
Lemma serve_redirect cfg r w :
  canonical (Method r) (Path r) = false ->
  serve cfg r w = (Redirect (cleanPath (Path r)), w).
Proof. intros Hc. unfold serve. rewrite Hc. reflexivity. Qed.

Lemma serve_root cfg r w :
  canonical (Method r) (Path r) = true ->
  Path r <> "/health" ->
  HasPrefix (Path r) "/" = true ->
  serve cfg r w = rootHandler cfg r w.
Proof.
  intros Hc Hp Hr. rewrite (serve_canonical _ _ _ Hc). unfold handler.
  destruct (String.eqb_spec (Path r) "/health"); [contradiction|].
  rewrite Hr. reflexivity.
Qed.

Lemma serve_movies cfg r w :
  HasPrefix (Path r) "/api/movies" = true ->
  canonical (Method r) (Path r) = true ->
  serve cfg r w = rootHandler cfg r w.
Proof.
  intros Hp Hc. apply serve_root; [exact Hc| |exact (prefix_rooted _ _ Hp)].
  intros Hh. rewrite Hh in Hp. discriminate Hp.
Qed.

(** What a request is answered with is a function of the request and, for
    a movies request, of the number drawn. *)
Lemma serve_cases cfg r w :
  fst (serve cfg r w) =
  if canonical (Method r) (Path r) then
    if String.eqb (Path r) "/health"
    then Respond 200 "Strangler Fig Proxy is healthy"
    else if HasPrefix (Path r) "/"
         then ProxyTo (selected cfg (Path r) (nextRoll w))
         else Respond 404 ("404 page not found" +:+ nl)
  else Redirect (cleanPath (Path r)).
Proof.
  unfold serve, handler.
  destruct (canonical (Method r) (Path r)); [|reflexivity].
  destruct (String.eqb (Path r) "/health"); [reflexivity|].
  destruct (HasPrefix (Path r) "/"); [|reflexivity].
  apply rootHandler_selected.
Qed.

End Routing.

Section RoutingTheorems.
Context {G : Type} `{RandSource G}.
Implicit Types (cfg : Config) (r : Request) (w : World G).

Lemma movies_selected cfg r w :
  HasPrefix (Path r) "/api/movies" = true ->
  canonical (Method r) (Path r) = true ->
  fst (serve cfg r w) =
  ProxyTo (if gradualMigrationEnabled cfg && (nextRoll w <? migrationPercent cfg)
           then MoviesService else Monolith).
Proof.
  intros Hp Hc. rewrite (serve_movies _ _ _ Hp Hc), rootHandler_selected.
  unfold selected. rewrite Hp. reflexivity.
Qed.

(** C1, as amended.  A request whose path begins with /api/movies.  When
    the mux redirects it (the path is not canonical and the method is
    not CONNECT) it is answered with the redirect to the canonical path:
    no number is drawn and it is forwarded nowhere.  When the mux hands
    it to the handlers: the number drawn lies in [0,100); with migration
    enabled the request goes to movies-service exactly when that number
    is strictly below the configured percentage and to the monolith
    otherwise, and the source has advanced by that one draw; with
    percentage 100 it always goes to movies-service and with percentage
    0 always to the monolith; with migration disabled it goes to the
    monolith whatever the percentage, and no number is drawn. *)
Theorem movies_request_follows_migration_roll cfg r w :
  HasPrefix (Path r) "/api/movies" = true ->
  (canonical (Method r) (Path r) = false ->
     serve cfg r w = (Redirect (cleanPath (Path r)), w)) /\
  (canonical (Method r) (Path r) = true ->
     0 <= nextRoll w < 100 /\
     (gradualMigrationEnabled cfg = true ->
        (fst (serve cfg r w) = ProxyTo MoviesService <->
         nextRoll w < migrationPercent cfg) /\
        (fst (serve cfg r w) = ProxyTo Monolith <->
         ~ nextRoll w < migrationPercent cfg) /\
        rng (snd (serve cfg r w)) = snd (Intn 100 (rng w)) /\
        (migrationPercent cfg = 100 ->
           fst (serve cfg r w) = ProxyTo MoviesService) /\
        (migrationPercent cfg = 0 -> fst (serve cfg r w) = ProxyTo Monolith)) /\
     (gradualMigrationEnabled cfg = false ->
        fst (serve cfg r w) = ProxyTo Monolith /\
        rng (snd (serve cfg r w)) = rng w)).
Proof.
  intros Hp. split; [apply serve_redirect|]. intros Hc.
  pose proof (nextRoll_range w) as Hroll.
  pose proof (movies_selected cfg r w Hp Hc) as Hsel.
  pose proof (rootHandler_rng cfg r w) as Hrng.
  rewrite <- (serve_movies _ _ _ Hp Hc), Hp in Hrng.
  split; [exact Hroll|]. split.
  - intros Hen. rewrite Hen in Hsel, Hrng. cbn [andb] in Hsel, Hrng.
    rewrite Hsel.
    destruct (Z.ltb_spec (nextRoll w) (migrationPercent cfg)) as [Hlt|Hge].
    + repeat split; try (intros; lia); try reflexivity; congruence.
    + repeat split; try (intros; lia); try reflexivity; congruence.
  - intros Hen. rewrite Hen in Hsel, Hrng. cbn [andb] in Hsel, Hrng.
    split; assumption.
Qed.

(** C2, as amended.  A request the mux redirects (its path begins with
    a slash, is not canonical, and its method is not CONNECT) is answered
    with the redirect to the canonical path: no handler runs and it is
    forwarded nowhere.  Of the requests the mux hands to the handlers, the path
    /health is answered by the proxy itself with 200 and is forwarded
    nowhere; every other one whose path begins with a slash is forwarded
    to exactly one of the three origins, and when its path does not begin
    with /api/movies it goes to events-service if the path begins with
    /api/events, whatever the migration flag and percentage, and to the
    monolith if not. *)
Theorem other_request_routing cfg r w :
  (canonical (Method r) (Path r) = false ->
   HasPrefix (Path r) "/" = true ->
     serve cfg r w = (Redirect (cleanPath (Path r)), w)) /\
  (canonical (Method r) (Path r) = true ->
   (Path r = "/health" ->
      fst (serve cfg r w) = Respond 200 "Strangler Fig Proxy is healthy") /\
   (Path r <> "/health" ->
    HasPrefix (Path r) "/" = true ->
      (exists o, fst (serve cfg r w) = ProxyTo o /\
                 forall o', fst (serve cfg r w) = ProxyTo o' -> o' = o) /\
      (HasPrefix (Path r) "/api/movies" = false ->
         (HasPrefix (Path r) "/api/events" = true ->
            fst (serve cfg r w) = ProxyTo EventsService) /\
         (HasPrefix (Path r) "/api/events" = false ->
            fst (serve cfg r w) = ProxyTo Monolith)))).
Proof.
  split; [intros Hc _; apply serve_redirect, Hc|]. intros Hc. split.
  - intros Hp. rewrite (serve_canonical _ _ _ Hc). unfold handler.
    rewrite Hp. reflexivity.
  - intros Hp Hr. rewrite (serve_root _ _ _ Hc Hp Hr), rootHandler_selected.
    split.
    + eexists. split; [reflexivity|]. intros o' Ho'. congruence.
    + intros Hm. unfold selected. rewrite Hm.
      split; intros He; rewrite He; reflexivity.
Qed.

End RoutingTheorems.

(** C2, witness of the amended statement: GET /api/users goes to the
    monolith, and GET //api/events is redirected to /api/events. *)
Lemma other_request_routing_witness :
  fst (serve (cfgOf true 100) getUsers world0) = ProxyTo Monolith /\
  serve (cfgOf true 100) getEventsDoubleSlash world0 =
    (Redirect "/api/events", world0).
Proof.
  assert (Hne : Path getUsers <> "/health") by discriminate.
  destruct (other_request_routing (cfgOf true 100) getUsers world0) as [_ Hu].
  destruct (other_request_routing (cfgOf true 100) getEventsDoubleSlash world0)
    as [He _].
  split.
  - exact (proj2 (proj2 (proj2 (Hu eq_refl) Hne eq_refl) eq_refl) eq_refl).
  - exact (He eq_refl eq_refl).
Defined.

(** C2, counterexample to the statement as written: the path /health
    begins with neither /api/movies nor /api/events, and the request is
    not forwarded to the monolith nor to any origin. *)
Lemma health_request_is_not_forwarded :
  HasPrefix (Path getHealth) "/api/movies" = false /\
  HasPrefix (Path getHealth) "/api/events" = false /\
  fst (serve (cfgOf false 0) getHealth world0) =
    Respond 200 "Strangler Fig Proxy is healthy" /\
  fst (serve (cfgOf false 0) getHealth world0) <> ProxyTo Monolith /\
  ~ (exists o, fst (serve (cfgOf false 0) getHealth world0) = ProxyTo o).
Proof.
  repeat split; try discriminate. intros [o Ho]. discriminate Ho.
Qed.

(** C1, witness: with migration enabled at 100 percent, GET
    /api/movies/42 goes to movies-service. *)
Lemma movies_request_follows_migration_roll_witness :
  HasPrefix (Path getMovies) "/api/movies" = true /\
  canonical (Method getMovies) (Path getMovies) = true /\
  fst (serve (cfgOf true 100) getMovies world0) = ProxyTo MoviesService.
Proof.
  split; [reflexivity|]. split; [reflexivity|].
  destruct (movies_request_follows_migration_roll
              (cfgOf true 100) getMovies world0 eq_refl) as [_ Hserved].
  destruct (Hserved eq_refl) as [_ [Hen _]].
  destruct (Hen eq_refl) as (_ & _ & _ & H100 & _).
  exact (H100 eq_refl).
Defined.

(** C1, counterexample to the statement as written: the path of GET
    /api/movies//1 begins with /api/movies, yet with migration enabled at
    100 percent the request is not forwarded to movies-service, and with
    migration disabled it is not forwarded to the monolith: the mux
    answers it with a redirect to /api/movies/1, and no number is
    drawn. *)
Lemma unclean_movies_request_is_redirected :
  HasPrefix (Path getMoviesDoubleSlash) "/api/movies" = true /\
  serve (cfgOf true 100) getMoviesDoubleSlash world0 =
    (Redirect "/api/movies/1", world0) /\
  fst (serve (cfgOf true 100) getMoviesDoubleSlash world0) <>
    ProxyTo MoviesService /\
  fst (serve (cfgOf false 100) getMoviesDoubleSlash world0) <>
    ProxyTo Monolith.
Proof.
  split; [reflexivity|]. split; [reflexivity|]. split; discriminate.
Qed.

Section StartupTheorems.
Context {URL : Type} (url_Parse : string -> error + URL).

Lemma main_percent env addr cfg log :
  main url_Parse env = ListenAndServe addr cfg log ->
  migrationPercent cfg = percentOf env /\
  gradualMigrationEnabled cfg =
    String.eqb (getEnv env "GRADUAL_MIGRATION" "false") "true".
Proof.
  unfold main, percentOf.
  destruct (Atoi _) as [err|n];
    destruct (url_Parse (getEnv env "MONOLITH_URL" _)); try discriminate;
    destruct (url_Parse (getEnv env "MOVIES_SERVICE_URL" _)); try discriminate;
    destruct (url_Parse (getEnv env "EVENTS_SERVICE_URL" _)); try discriminate;
    intros [= <- <- <-]; split; reflexivity.
Qed.

Lemma main_listens env :
  Forall (wellFormed url_Parse) (upstreamURLs env) ->
  exists cfg log,
    main url_Parse env = ListenAndServe (":" +:+ getEnv env "PORT" "8000") cfg log /\
    forall err, Atoi (getEnv env "MOVIES_MIGRATION_PERCENT" "0") = inl err ->
      In (Printf "Invalid MOVIES_MIGRATION_PERCENT value, defaulting to 0. Error: %v"
                 [Err err]) log.
Proof.
  unfold upstreamURLs. intros Hwf.
  apply Forall_cons_1 in Hwf as [[u1 H1] Hwf].
  apply Forall_cons_1 in Hwf as [[u2 H2] Hwf].
  apply Forall_cons_1 in Hwf as [[u3 H3] _].
  unfold main. rewrite H1, H2, H3.
  destruct (Atoi _) as [err|n]; do 2 eexists; (split; [reflexivity|]).
  - intros err' [= <-]. left. reflexivity.
  - intros err' [=].
Qed.

Lemma main_fatal env :
  Exists (malformed url_Parse) (upstreamURLs env) ->
  exists log, main url_Parse env = Fatal log.
Proof.
  unfold upstreamURLs, main. intros Hex.
  destruct (Atoi _) as [err|n];
    (destruct (url_Parse (getEnv env "MONOLITH_URL" _)) as [e1|u1] eqn:H1;
       [eexists; reflexivity|];
     destruct (url_Parse (getEnv env "MOVIES_SERVICE_URL" _)) as [e2|u2] eqn:H2;
       [eexists; reflexivity|];
     destruct (url_Parse (getEnv env "EVENTS_SERVICE_URL" _)) as [e3|u3] eqn:H3;
       [eexists; reflexivity|]);
    exfalso;
    repeat (apply Exists_cons in Hex as [[e He]|Hex]; [congruence|]);
    apply Exists_nil in Hex; exact Hex.
Qed.

(** With percentage at most 0 no request at all reaches movies-service. *)
Lemma nonpositive_percent_spares_movies_service
    {G : Type} `{RandSource G} (cfg : Config) (r : Request) (w : World G) :
  migrationPercent cfg <= 0 ->
  fst (serve cfg r w) <> ProxyTo MoviesService.
Proof.
  intros Hpct. rewrite serve_cases.
  destruct (canonical (Method r) (Path r)); [|discriminate].
  destruct (String.eqb (Path r) "/health"); [discriminate|].
  destruct (HasPrefix (Path r) "/"); [|discriminate].
  unfold selected. pose proof (nextRoll_range w) as Hroll.
  destruct (Z.ltb_spec (nextRoll w) (migrationPercent cfg)); [lia|].
  rewrite andb_false_r.
  destruct (HasPrefix (Path r) "/api/movies"); [discriminate|].
  destruct (HasPrefix (Path r) "/api/events"); discriminate.
Qed.

(** C9, as amended.  When MOVIES_MIGRATION_PERCENT does not parse as an
    integer, startup is not fatal on that account: if the three upstream
    URLs parse, [main] reaches [http.ListenAndServe], having logged the
    error and with percentage 0, so that (migration enabled or not) every
    /api/movies request the mux hands to the handlers goes to the
    monolith, and no request at all goes to movies-service; whereas a
    malformed upstream URL is fatal. *)
Theorem invalid_percent_defaults_to_zero
    {G : Type} `{RandSource G} (env : Environ) (err : error) :
  Atoi (getEnv env "MOVIES_MIGRATION_PERCENT" "0") = inl err ->
  (Forall (wellFormed url_Parse) (upstreamURLs env) ->
     exists cfg log,
       main url_Parse env =
         ListenAndServe (":" +:+ getEnv env "PORT" "8000") cfg log /\
       In (Printf "Invalid MOVIES_MIGRATION_PERCENT value, defaulting to 0. Error: %v"
                  [Err err]) log /\
       migrationPercent cfg = 0 /\
       (forall (r : Request) (w : World G),
          HasPrefix (Path r) "/api/movies" = true ->
          canonical (Method r) (Path r) = true ->
          fst (serve cfg r w) = ProxyTo Monolith) /\
       (forall (r : Request) (w : World G),
          fst (serve cfg r w) <> ProxyTo MoviesService)) /\
  (Exists (malformed url_Parse) (upstreamURLs env) ->
     exists log, main url_Parse env = Fatal log).
Proof.
  intros Herr. split; [|apply main_fatal].
  intros Hwf. destruct (main_listens env Hwf) as (cfg & log & Hmain & Hlog).
  exists cfg, log. split; [exact Hmain|]. split; [exact (Hlog err Herr)|].
  destruct (main_percent _ _ _ _ Hmain) as [Hpct _].
  unfold percentOf in Hpct. rewrite Herr in Hpct.
  split; [exact Hpct|]. split.
  - intros r w Hp Hc. rewrite (movies_selected cfg r w Hp Hc), Hpct.
    pose proof (nextRoll_range w) as Hroll.
    destruct (Z.ltb_spec (nextRoll w) 0); [lia|].
    rewrite andb_false_r. reflexivity.
  - intros r w. apply nonpositive_percent_spares_movies_service. lia.
Qed.

(** C10, as amended.  The percentage is used as [strconv.Atoi] returned
    it, without validation or clamping: once [main] serves, the
    configured percentage is that integer, and with migration enabled
    every /api/movies request the mux hands to the handlers goes to
    movies-service when it is at least 100 and to the monolith when it is
    at most 0. *)
Theorem percentage_is_not_clamped
    {G : Type} `{RandSource G} (env : Environ) (n : Z)
    (addr : string) (cfg : Config) (log : list (LogLine error))
    (r : Request) (w : World G) :
  Atoi (getEnv env "MOVIES_MIGRATION_PERCENT" "0") = inr n ->
  main url_Parse env = ListenAndServe addr cfg log ->
  HasPrefix (Path r) "/api/movies" = true ->
  canonical (Method r) (Path r) = true ->
  migrationPercent cfg = n /\
  (gradualMigrationEnabled cfg = true ->
     (100 <= n -> fst (serve cfg r w) = ProxyTo MoviesService) /\
     (n <= 0 -> fst (serve cfg r w) = ProxyTo Monolith)).
Proof.
  intros Hn Hmain Hp Hc.
  destruct (main_percent _ _ _ _ Hmain) as [Hpct _].
  unfold percentOf in Hpct. rewrite Hn in Hpct.
  split; [exact Hpct|]. intros Hen.
  rewrite (movies_selected cfg r w Hp Hc), Hen, Hpct. cbn [andb].
  pose proof (nextRoll_range w) as Hroll.
  split; intros Hb; destruct (Z.ltb_spec (nextRoll w) n); (reflexivity || lia).
Qed.

End StartupTheorems.

(** C9, witness: MOVIES_MIGRATION_PERCENT=fifty. *)
Lemma invalid_percent_defaults_to_zero_witness :
  Atoi (getEnv envBadPercent "MOVIES_MIGRATION_PERCENT" "0") =
    inl (NumError "Atoi" "fifty" "invalid syntax") /\
  exists cfg log,
    main parseURL envBadPercent = ListenAndServe ":8000" cfg log /\
    gradualMigrationEnabled cfg = true /\
    migrationPercent cfg = 0 /\
    fst (serve cfg getMovies world0) = ProxyTo Monolith.
Proof.
  split; [vm_compute; reflexivity|].
  assert (Hwf : Forall (wellFormed parseURL) (upstreamURLs envBadPercent)).
  { repeat constructor; eexists; vm_compute; reflexivity. }
  destruct (proj1 (invalid_percent_defaults_to_zero parseURL (G := Z) envBadPercent
                     (NumError "Atoi" "fifty" "invalid syntax") eq_refl) Hwf)
    as (cfg & log & Hmain & _ & Hpct & Hroute & _).
  exists cfg, log. split; [exact Hmain|].
  split; [|split; [exact Hpct|exact (Hroute getMovies world0 eq_refl eq_refl)]].
  destruct (main_percent _ _ _ _ _ Hmain) as [_ ->]. vm_compute; reflexivity.
Defined.

(** C9, counterexample to the statement as written: with
    MOVIES_MIGRATION_PERCENT=fifty and migration enabled, the path of GET
    /api/movies/../health begins with /api/movies, yet the request does
    not go to the monolith: the mux redirects it to /api/health. *)
Lemma bad_percent_unclean_request_is_redirected :
  exists cfg log,
    main parseURL envBadPercent = ListenAndServe ":8000" cfg log /\
    gradualMigrationEnabled cfg = true /\
    HasPrefix (Path getMoviesDotDot) "/api/movies" = true /\
    fst (serve cfg getMoviesDotDot world0) = Redirect "/api/health" /\
    fst (serve cfg getMoviesDotDot world0) <> ProxyTo Monolith.
Proof.
  do 2 eexists. split; [vm_compute; reflexivity|].
  split; [reflexivity|]. split; [reflexivity|].
  split; [reflexivity|discriminate].
Qed.

(** C10, witness: MOVIES_MIGRATION_PERCENT=250 with migration enabled. *)
Lemma percentage_is_not_clamped_witness :
  exists cfg log,
    main parseURL envPercent250 = ListenAndServe ":8000" cfg log /\
    migrationPercent cfg = 250 /\
    fst (serve cfg getMovies world0) = ProxyTo MoviesService.
Proof.
  assert (Hwf : Forall (wellFormed parseURL) (upstreamURLs envPercent250)).
  { repeat constructor; eexists; vm_compute; reflexivity. }
  destruct (main_listens parseURL envPercent250 Hwf) as (cfg & log & Hmain & _).
  exists cfg, log. split; [exact Hmain|].
  assert (Hn : Atoi (getEnv envPercent250 "MOVIES_MIGRATION_PERCENT" "0") = inr 250)
    by (vm_compute; reflexivity).
  destruct (percentage_is_not_clamped parseURL envPercent250 250 _ cfg log
              getMovies world0 Hn Hmain eq_refl eq_refl) as [Hpct Hroute].
  split; [exact Hpct|].
  destruct (main_percent _ _ _ _ _ Hmain) as [_ Hen].
  apply Hroute; [rewrite Hen; vm_compute; reflexivity | lia].
Defined.

(** C10, counterexample to the statement as written: with
    MOVIES_MIGRATION_PERCENT=250 and migration enabled, the path of GET
    /api/movies/./list begins with /api/movies, yet the request does not
    go to movies-service: the mux redirects it to /api/movies/list. *)
Lemma large_percent_unclean_request_is_redirected :
  exists cfg log,
    main parseURL envPercent250 = ListenAndServe ":8000" cfg log /\
    gradualMigrationEnabled cfg = true /\
    migrationPercent cfg = 250 /\
    HasPrefix (Path getMoviesDot) "/api/movies" = true /\
    fst (serve cfg getMoviesDot world0) = Redirect "/api/movies/list" /\
    fst (serve cfg getMoviesDot world0) <> ProxyTo MoviesService.
Proof.
  do 2 eexists. split; [vm_compute; reflexivity|].
  split; [reflexivity|]. split; [reflexivity|]. split; [reflexivity|].
  split; [reflexivity|discriminate].
Qed.

End ProxySpec.

(** * Properties of the reference instances *)

Module ReferenceSpec.
Import Events Reference.

#[local] Arguments String.append !s1 s2 : simpl nomatch.

Lemma append_snoc (s t : string) (c : ascii) :
  String.append (snoc s c) t = String.append s (String c t).
Proof. unfold snoc. induction s as [|a s IH]; cbn [append]; [|rewrite IH]; reflexivity. Qed.

Lemma append_empty_r (s : string) : String.append s EmptyString = s.
Proof. induction s as [|a s IH]; cbn [append]; [|rewrite IH]; reflexivity. Qed.

(** Scanning a key, a string value and a number that the printer wrote. *)

Lemma scan_InKey key : forall acc f v rest,
  all plain key = true ->
  fieldOf (String.append acc key) = Some f ->
  scan (InKey acc) v (String.append key (String dquote (String ":" rest))) =
  scan (ValueOf f) v rest.
Proof.
  induction key as [|c key IH]; intros acc f v rest Hplain Hf; cbn [append scan].
  - rewrite append_empty_r in Hf. rewrite Hf. reflexivity.
  - cbn [all] in Hplain. apply andb_prop in Hplain as [Hc Hkey].
    rewrite Hc. apply IH; [exact Hkey|]. rewrite append_snoc. exact Hf.
Qed.

Lemma scan_jsonKey key f first v rest :
  all plain key = true ->
  fieldOf key = Some f ->
  scan (Member first) v (jsonKey key rest) = scan (ValueOf f) v rest.
Proof.
  intros Hplain Hf. unfold jsonKey. cbn [scan].
  change (isSpace dquote) with false. change (Ascii.eqb dquote dquote) with true.
  cbv iota. apply scan_InKey; assumption.
Qed.

Lemma scan_InText s : forall acc f v rest,
  all plain s = true ->
  scan (InText f acc) v (String.append s (String dquote rest)) =
  scan Next (setText f (String.append acc s) v) rest.
Proof.
  induction s as [|c s IH]; intros acc f v rest Hplain; cbn [append scan].
  - rewrite append_empty_r. reflexivity.
  - cbn [all] in Hplain. apply andb_prop in Hplain as [Hc Hs].
    rewrite Hc, (IH _ _ _ _ Hs), append_snoc. reflexivity.
Qed.

Lemma scan_jsonText s f v rest :
  isInt f = false ->
  all plain s = true ->
  scan (ValueOf f) v (jsonText s rest) = scan Next (setText f s v) rest.
Proof.
  intros Hf Hplain. unfold jsonText. cbn [scan].
  change (numeric dquote) with false. change (Ascii.eqb dquote dquote) with true.
  cbv iota. rewrite Hf. apply (scan_InText s EmptyString); exact Hplain.
Qed.

Lemma scan_InNumber s : forall acc f v c rest,
  all numeric s = true ->
  scan (InNumber f acc) v (String.append s (String c rest)) =
  scan (InNumber f (String.append acc s)) v (String c rest).
Proof.
  induction s as [|a s IH]; intros acc f v c rest Hnum; cbn [append].
  - rewrite append_empty_r. reflexivity.
  - cbn [all] in Hnum. apply andb_prop in Hnum as [Ha Hs].
    cbn [scan]. rewrite Ha, (IH _ _ _ _ _ Hs), append_snoc. reflexivity.
Qed.

Lemma uint_numeric (d : Decimal.uint) :
  all numeric (DecimalString.NilEmpty.string_of_uint d) = true.
Proof. induction d; cbn [DecimalString.NilEmpty.string_of_uint all]; try rewrite IHd; reflexivity. Qed.

Lemma itoa_numeric (n : Z) :
  exists c s, itoa n = String c s /\ numeric c = true /\ all numeric s = true.
Proof.
  assert (Hu : forall d, d <> Decimal.Nil ->
             exists c s, DecimalString.NilZero.string_of_uint d = String c s /\
                         numeric c = true /\ all numeric s = true).
  { intros d Hd. pose proof (uint_numeric d) as Hall.
    destruct d; try contradiction;
      cbn [DecimalString.NilZero.string_of_uint DecimalString.NilEmpty.string_of_uint all] in *;
      (eexists; eexists; split; [reflexivity|]);
      apply andb_prop in Hall; exact Hall. }
  unfold itoa. destruct n as [|p|p]; cbn [Z.to_int DecimalString.NilZero.string_of_int].
  - exists "0"%char, EmptyString. repeat split.
  - apply Hu, DecimalPos.Unsigned.to_uint_nonnil.
  - destruct (Hu (Pos.to_uint p) (DecimalPos.Unsigned.to_uint_nonnil p))
      as (c & s & Hs & Hc & Hall).
    exists "-"%char, (String c s). rewrite Hs. cbn [all]. rewrite Hc, Hall.
    repeat split.
Qed.

Lemma number_itoa (n : Z) : inRange n = true -> number (itoa n) = Some n.
Proof.
  intros Hr. unfold number, itoa at 1.
  rewrite DecimalString.NilZero.isi.
  - rewrite DecimalZ.of_to, String.eqb_refl, Hr. reflexivity.
  - destruct n; cbn; try discriminate.
    intros [= Hnil]. exact (DecimalPos.Unsigned.to_uint_nonnil _ Hnil).
  - destruct n; cbn; try discriminate.
    intros [= Hnil]. exact (DecimalPos.Unsigned.to_uint_nonnil _ Hnil).
Qed.

Lemma scan_jsonInt n f v c st rest :
  isInt f = true ->
  inRange n = true ->
  numeric c = false ->
  afterValue c = Some st ->
  scan (ValueOf f) v (jsonInt n (String c rest)) = scan st (setInt f n v) rest.
Proof.
  intros Hf Hr Hc Hst. unfold jsonInt.
  pose proof (number_itoa n Hr) as Hn.
  destruct (itoa_numeric n) as (a & s & Hs & Ha & Hall).
  rewrite Hs in Hn |- *. cbn [append scan]. rewrite Ha, Hf.
  rewrite (scan_InNumber s _ _ _ _ _ Hall). cbn [append scan].
  rewrite Hc, Hn, Hst. reflexivity.
Qed.

(** Decoding what the printer wrote for [v] gives [v], whatever the
    target held. *)
Lemma scan_marshalMovie (v v0 : MovieEvent.t) (bytes : string) :
  marshalMovie v = inr bytes -> scan Start v0 bytes = inr v.
Proof.
  unfold marshalMovie.
  destruct (inRange (MovieEvent.MovieID v)) eqn:Hid; [|discriminate].
  destruct (inRange (MovieEvent.UserID v)) eqn:Huid; [|discriminate].
  destruct (all plain (MovieEvent.Title v)) eqn:Htitle; [|discriminate].
  destruct (all plain (MovieEvent.Action v)) eqn:Haction; [|discriminate].
  cbn [andb]. intros [= <-]. cbn [scan].
  change (isSpace "{") with false. change (Ascii.eqb "{" "{") with true. cbv iota.
  rewrite (scan_jsonKey "movie_id" FMovieID) by reflexivity.
  rewrite (scan_jsonInt _ FMovieID _ "," (Member false)) by (reflexivity || assumption).
  rewrite (scan_jsonKey "title" FTitle) by reflexivity.
  rewrite (scan_jsonText _ FTitle) by (reflexivity || assumption).
  cbn [scan]. change (afterValue ",") with (Some (Member false)). cbv iota.
  rewrite (scan_jsonKey "action" FAction) by reflexivity.
  rewrite (scan_jsonText _ FAction) by (reflexivity || assumption).
  cbn [scan]. change (afterValue ",") with (Some (Member false)). cbv iota.
  rewrite (scan_jsonKey "user_id" FUserID) by reflexivity.
  rewrite (scan_jsonInt _ FUserID _ "}" End EmptyString) by (reflexivity || assumption).
  destruct v; reflexivity.
Qed.

(** The reference codec gives back what it marshalled. *)
Lemma reference_stable : StableReencoding.
Proof.
  intros topic body eventData eventBytes. unfold decodeAs.
  destruct (newEventData topic) as [target|] eqn:Ht; [|discriminate].
  destruct eventData as [v|u|q]; cbn [Marshal json marshal]; try discriminate.
  destruct target as [v0|u0|q0]; cbn [Decode json decode];
    [|destruct body; discriminate|destruct body; discriminate].
  intros _ Hm. rewrite (scan_marshalMovie v v0 eventBytes Hm). reflexivity.
Qed.

End ReferenceSpec.

(** * Properties of the events service *)

Module EventsSpec.
Import Events.

Section Producer.
Context {W : Type} `{JSON} `{KafkaWriter W} `{Redirection}.
Implicit Types (r : Request) (w : World W) (topic endpoint : string).

Lemma endpoint_topic endpoint topic :
  In (endpoint, topic) eventEndpoints ->
  exists target, newEventData topic = Some target /\
    forall r, Path r = endpoint -> serve r = handleEvent topic r.
Proof.
  intros Hin. unfold eventEndpoints in Hin.
  repeat (destruct Hin as [[= <- <-]|Hin];
          [eexists; split; [reflexivity|];
           intros r Hr; unfold serve, handler; rewrite Hr;
           rewrite MuxSpec.canonical_clean by (vm_compute; reflexivity);
           reflexivity|]).
  destruct Hin.
Qed.

(** The handler on a POST to a known topic, by the results of its three
    calls. *)
Lemma handleEvent_post topic r w :
  Method r = MethodPost ->
  In topic topics ->
  handleEvent topic r w =
  match decodeAs topic (Body r) with
  | inl err =>
      (http_Error (Error err) StatusBadRequest,
       after w (writer w) [DecodedBody (Body r)])
  | inr eventData =>
      match Marshal eventData with
      | inl err =>
          (http_Error (Error err) StatusInternalServerError,
           after w (writer w) [DecodedBody (Body r)])
      | inr eventBytes =>
          let msg := produced topic eventBytes in
          match WriteMessages msg (writer w) with
          | (Some err, k) =>
              (http_Error "Failed to write message to Kafka" StatusInternalServerError,
               after w k [DecodedBody (Body r); WriteAttempt msg (Some err);
                          Logged (Printf "Failed to write message to Kafka: %v" [Err err])])
          | (None, k) =>
              ({| StatusCode := StatusCreated;
                  Header := {["Content-Type" := "application/json"]};
                  ResponseBody := statusSuccessJSON |},
               after w k [DecodedBody (Body r); WriteAttempt msg None;
                          Logged (Printf "Successfully produced message to topic %s: %s"
                                         [Str topic; Str eventBytes])])
          end
      end
  end.
Proof.
  intros Hm Hin.
  assert (exists target, newEventData topic = Some target) as [target Ht].
  { unfold topics in Hin.
    repeat (destruct Hin as [<-|Hin]; [eexists; reflexivity|]). destruct Hin. }
  unfold handleEvent, decodeAs. rewrite Hm, String.eqb_refl, Ht.
  cbv [negb bind json_Decode writer_WriteMessages log_Printf ret after writer trace].
  destruct (Decode (Body r) target) as [err|eventData]; [reflexivity|].
  destruct (Marshal eventData) as [err|eventBytes]; [reflexivity|].
  destruct (WriteMessages _ _) as [[err|] k];
    rewrite <- !app_assoc; reflexivity.
Qed.

Lemma writeAttempts_app (tr es : list Effect) :
  writeAttempts (tr ++ es) = writeAttempts tr ++ writeAttempts es.
Proof. apply omap_app. Qed.

Lemma published_app (tr es : list Effect) :
  published (tr ++ es) = published tr ++ published es.
Proof. apply omap_app. Qed.

Lemma decodes_app (tr es : list Effect) :
  decodes (tr ++ es) = decodes tr ++ decodes es.
Proof. apply omap_app. Qed.

(** C3. A POST to an event endpoint whose body decodes and whose broker
    write succeeds is answered 201 with the JSON body
    {status: success} (the object, with its two strings in double
    quotes, and a line feed); exactly one message is written, to the
    topic of that endpoint (movie-events for /api/events/movie,
    user-events for /api/events/user, payment-events for
    /api/events/payment), and its value is the marshalled decoded
    structure; when the codec gives back what it marshalled from a
    decoded structure (as encoding/json does for the three event
    structures), decoding that message gives the decoded request
    content. *)
Theorem accepted_event_is_published
    endpoint topic r w (eventData : EventData) (eventBytes : string) (k : W) :
  In (endpoint, topic) eventEndpoints ->
  Path r = endpoint ->
  Method r = MethodPost ->
  decodeAs topic (Body r) = inr eventData ->
  Marshal eventData = inr eventBytes ->
  WriteMessages (produced topic eventBytes) (writer w) = (None, k) ->
  StableReencoding ->
  let resp := fst (serve r w) in
  let w' := snd (serve r w) in
  let msg := produced topic eventBytes in
  StatusCode resp = 201 /\
  ResponseBody resp =
    string_of_list_ascii
      ["{"; "034"; "s"; "t"; "a"; "t"; "u"; "s"; "034"; ":";
       "034"; "s"; "u"; "c"; "c"; "e"; "s"; "s"; "034"; "}"; "010"]%char /\
  Header resp !! "Content-Type" = Some "application/json" /\
  writeAttempts (trace w') = writeAttempts (trace w) ++ [msg] /\
  published (trace w') = published (trace w) ++ [msg] /\
  writer w' = k /\
  In (endpoint, Topic msg)
     [("/api/events/movie", "movie-events");
      ("/api/events/user", "user-events");
      ("/api/events/payment", "payment-events")] /\
  Topic msg = topic /\
  Marshal eventData = inr (Value msg) /\
  decodeAs topic (Value msg) = inr eventData.
Proof.
  intros Hin Hp Hm Hdec Hmar Hwr Hstable.
  destruct (endpoint_topic _ _ Hin) as (target & Ht & Hserve).
  assert (Htopic : In topic topics).
  { unfold eventEndpoints in Hin. unfold topics.
    repeat (destruct Hin as [[= <- <-]|Hin]; [cbn; tauto|]). destruct Hin. }
  cbv zeta. rewrite (Hserve r Hp), (handleEvent_post topic r w Hm Htopic).
  rewrite Hdec, Hmar. cbv zeta. rewrite Hwr. cbn [fst snd after trace writer].
  rewrite writeAttempts_app, published_app.
  split; [reflexivity|]. split; [reflexivity|].
  split; [vm_compute; reflexivity|].
  split; [reflexivity|]. split; [reflexivity|]. split; [reflexivity|].
  split; [exact Hin|]. split; [reflexivity|]. split; [reflexivity|].
  exact (Hstable topic (Body r) eventData eventBytes Hdec Hmar).
Qed.

Lemma empty_body_refused topic : In topic topics -> Refused topic EmptyString.
Proof.
  intros Hin. exists EOF. unfold decodeAs, topics in *.
  repeat (destruct Hin as [<-|Hin]; [apply Decode_EOF|]). destruct Hin.
Qed.

(** C4, as amended.  A POST to an event endpoint whose body is empty, or
    which the decoder refuses for the structure of that kind, is answered
    400 with the text of the decoder's error; no write is attempted,
    nothing is published to any topic, and the broker client is left as
    it was.  A body the decoder accepts is never answered 400: the answer
    is 201 or 500. *)
Theorem undecodable_body_is_rejected endpoint topic r w :
  In (endpoint, topic) eventEndpoints ->
  Path r = endpoint ->
  Method r = MethodPost ->
  let resp := fst (serve r w) in
  let w' := snd (serve r w) in
  (Body r = EmptyString \/ Refused topic (Body r) ->
     StatusCode resp = 400 /\
     (exists err, decodeAs topic (Body r) = inl err /\
                  ResponseBody resp = Error err +:+ nl) /\
     writeAttempts (trace w') = writeAttempts (trace w) /\
     published (trace w') = published (trace w) /\
     writer w' = writer w) /\
  (forall eventData, decodeAs topic (Body r) = inr eventData ->
     StatusCode resp = 201 \/ StatusCode resp = 500).
Proof.
  intros Hin Hp Hm.
  destruct (endpoint_topic _ _ Hin) as (target & Ht & Hserve).
  assert (Htopic : In topic topics).
  { unfold eventEndpoints in Hin. unfold topics.
    repeat (destruct Hin as [[= <- <-]|Hin]; [cbn; tauto|]). destruct Hin. }
  cbv zeta. rewrite (Hserve r Hp), (handleEvent_post topic r w Hm Htopic).
  split.
  - intros Hbody.
    assert (Href : Refused topic (Body r)).
    { destruct Hbody as [->|Href]; [apply empty_body_refused, Htopic|exact Href]. }
    destruct Href as [err Hdec].
    rewrite Hdec. cbn [fst snd after trace writer].
    rewrite writeAttempts_app, published_app. cbn. rewrite !app_nil_r.
    split; [reflexivity|]. split; [exists err; split; reflexivity|].
    repeat split; reflexivity.
  - intros eventData Hdec. rewrite Hdec.
    destruct (Marshal eventData) as [err|eventBytes]; [right; reflexivity|].
    cbv zeta. destruct (WriteMessages _ _) as [[err|] k];
      [right|left]; reflexivity.
Qed.

(** C5. A POST to an event endpoint whose body decodes but whose broker
    write fails is answered 500; the handler called the broker client
    once, with that one message, and did nothing else than decode the
    body, make that call and log the failure: no second attempt, nothing
    kept for later, nothing published. *)
Theorem failed_write_is_reported_once
    endpoint topic r w (eventData : EventData) (eventBytes : string)
    (err : error) (k : W) :
  In (endpoint, topic) eventEndpoints ->
  Path r = endpoint ->
  Method r = MethodPost ->
  decodeAs topic (Body r) = inr eventData ->
  Marshal eventData = inr eventBytes ->
  WriteMessages (produced topic eventBytes) (writer w) = (Some err, k) ->
  let resp := fst (serve r w) in
  let w' := snd (serve r w) in
  let msg := produced topic eventBytes in
  StatusCode resp = 500 /\
  writeAttempts (trace w') = writeAttempts (trace w) ++ [msg] /\
  published (trace w') = published (trace w) /\
  writer w' = k /\
  trace w' = trace w ++
    [DecodedBody (Body r); WriteAttempt msg (Some err);
     Logged (Printf "Failed to write message to Kafka: %v" [Err err])].
Proof.
  intros Hin Hp Hm Hdec Hmar Hwr.
  destruct (endpoint_topic _ _ Hin) as (target & Ht & Hserve).
  assert (Htopic : In topic topics).
  { unfold eventEndpoints in Hin. unfold topics.
    repeat (destruct Hin as [[= <- <-]|Hin]; [cbn; tauto|]). destruct Hin. }
  cbv zeta. rewrite (Hserve r Hp), (handleEvent_post topic r w Hm Htopic).
  rewrite Hdec, Hmar. cbv zeta. rewrite Hwr. cbn [fst snd after trace writer].
  rewrite writeAttempts_app, published_app. cbn. rewrite !app_nil_r.
  repeat split; reflexivity.
Qed.

(** C6. A request to an event endpoint whose method is not POST is
    answered 405 and has no effect at all: the body is not decoded,
    nothing is written or logged, the world is unchanged. *)
Theorem non_post_is_not_allowed endpoint topic r w :
  In (endpoint, topic) eventEndpoints ->
  Path r = endpoint ->
  Method r <> MethodPost ->
  fst (serve r w) = http_Error "Method not allowed" 405 /\
  StatusCode (fst (serve r w)) = 405 /\
  snd (serve r w) = w /\
  decodes (trace (snd (serve r w))) = decodes (trace w) /\
  writeAttempts (trace (snd (serve r w))) = writeAttempts (trace w) /\
  published (trace (snd (serve r w))) = published (trace w).
Proof.
  intros Hin Hp Hm.
  destruct (endpoint_topic _ _ Hin) as (target & Ht & Hserve).
  rewrite (Hserve r Hp). unfold handleEvent.
  destruct (String.eqb_spec (Method r) MethodPost) as [Heq|_]; [contradiction|].
  repeat split; reflexivity.
Qed.

End Producer.

(** *** The goroutines *)

Section Goroutines.
Context {W : Type} `{JSON} `{KafkaWriter W} `{Redirection}.
Variable env : Environ.
Implicit Types (p q : Proc W) (k : W) (cs : gmap string Consumer).

Lemma NoDup_topics : List.NoDup topics.
Proof.
  unfold topics, movieTopic, userTopic, paymentTopic.
  repeat (apply List.NoDup_cons;
          [cbn; intros Hin;
           repeat (destruct Hin as [Hin|Hin]; [discriminate Hin|]); exact Hin|]).
  apply List.NoDup_nil.
Qed.

Lemma pending_nonneg cs : 0 <= pending cs.
Proof.
  unfold pending, topics. cbn.
  assert (forall c, 0 <= weight c) as Hw by (intros [[]|]; cbn; lia).
  pose proof (Hw (cs !! movieTopic)). pose proof (Hw (cs !! userTopic)).
  pose proof (Hw (cs !! paymentTopic)). lia.
Qed.

Lemma pending_insert cs t c :
  In t topics ->
  pending (<[t := c]> cs) = pending cs + weight (Some c) - weight (cs !! t).
Proof.
  unfold pending, topics, movieTopic, userTopic, paymentTopic. cbn [In foldr].
  intros [<-|[<-|[<-|[]]]];
    rewrite !lookup_insert; repeat case_decide; try congruence; lia.
Qed.

Lemma invariant_start k : invariant (start k).
Proof.
  unfold invariant, start. cbn [wg consumers mainpc].
  split; [reflexivity|]. split; [|split].
  - intros t Ht. rewrite lookup_empty in Ht. contradiction.
  - exists []. reflexivity.
  - intros t _. apply lookup_empty.
Qed.

(** A consumer that exists changes state: the invariant is kept when
    the counter follows. *)
Lemma invariant_update p q t c :
  invariant p ->
  consumers p !! t <> None ->
  consumers q = <[t := c]> (consumers p) ->
  mainpc q = mainpc p ->
  wg q = wg p + weight (Some c) - weight (consumers p !! t) ->
  invariant q.
Proof.
  intros (Hwg & Hdom & Hmain) Hc Hcs Hpc Hq.
  pose proof (Hdom t Hc) as Hin.
  unfold invariant. rewrite Hcs, Hpc, Hq.
  split; [|split].
  - rewrite (pending_insert _ _ _ Hin). lia.
  - intros t' Ht'. destruct (decide (t = t')) as [<-|Hne]; [exact Hin|].
    rewrite lookup_insert_ne in Ht' by exact Hne. apply Hdom, Ht'.
  - destruct (mainpc p) as [rest| |]; [|exact I|exact I].
    destruct Hmain as [Hst Hnone]. split; [exact Hst|].
    intros t' Ht'. rewrite lookup_insert_ne; [apply Hnone, Ht'|].
    intros <-. apply Hc, Hnone, Ht'.
Qed.

(** Nothing but the log, the answers or the exit status changes. *)
Lemma invariant_frame p q :
  invariant p ->
  consumers q = consumers p -> mainpc q = mainpc p \/ (mainpc q = Serving \/ mainpc q = Waiting) ->
  wg q = wg p ->
  invariant q.
Proof.
  intros (Hwg & Hdom & Hmain) Hcs Hpc Hq.
  unfold invariant. rewrite Hcs, Hq.
  split; [exact Hwg|]. split; [exact Hdom|].
  destruct Hpc as [->|[->| ->]]; [exact Hmain|exact I|exact I].
Qed.

Lemma invariant_step l p p' :
  invariant p -> step env l p = Some p' -> invariant p'.
Proof.
  intros Hinv. unfold step.
  destruct (exited p); [discriminate|].
  destruct l as [| [err|] | | topic | topic res | r].
  - (* MainRuns *)
    destruct (mainpc p) as [[|topic rest]| |] eqn:Hpc; try discriminate;
      intros [= <-].
    + apply (invariant_frame p); cbn; auto.
    + destruct Hinv as (Hwg & Hdom & Hmain). rewrite Hpc in Hmain.
      destruct Hmain as [[started Hst] Hnone].
      assert (Hin : In topic topics).
      { rewrite Hst. apply in_or_app. right. left. reflexivity. }
      unfold invariant; cbn [wg consumers mainpc].
      split; [|split; [|split]].
      * rewrite (pending_insert _ _ _ Hin), (Hnone topic (or_introl eq_refl)), Hwg.
        cbn [weight]. lia.
      * intros t Ht. destruct (decide (topic = t)) as [<-|Hne]; [exact Hin|].
        rewrite lookup_insert_ne in Ht by exact Hne. apply Hdom, Ht.
      * exists (started ++ [topic]). rewrite <- app_assoc. exact Hst.
      * intros t Ht. rewrite lookup_insert_ne; [apply Hnone; right; exact Ht|].
        intros <-. pose proof NoDup_topics as Hnd. rewrite Hst in Hnd.
        apply List.NoDup_remove_2 in Hnd. apply Hnd, in_or_app. right. exact Ht.
  - (* ListenAndServe returns an error *)
    destruct (mainpc p) eqn:Hpc; try discriminate.
    intros [= <-]. apply (invariant_frame p); cbn; auto.
  - (* ListenAndServe returns nil *)
    destruct (mainpc p) eqn:Hpc; try discriminate.
    intros [= <-]. apply (invariant_frame p); cbn; auto.
  - (* wg.Wait returns *)
    destruct (mainpc p) eqn:Hpc; try discriminate.
    destruct (wg p =? 0); [|discriminate].
    intros [= <-]. apply (invariant_frame p); cbn; auto.
  - (* ConsumerRuns *)
    intros Hstep.
    assert (consumers p !! topic = Some Spawned /\
            consumers p' = <[topic := Reading]> (consumers p) /\
            mainpc p' = mainpc p /\ wg p' = wg p) as (Hc & Hcs & Hpc & Hq).
    { destruct (consumers p !! topic) as [[]|];
        destruct (mainpc p); try discriminate;
        injection Hstep as <-; auto. }
    apply (invariant_update p p' topic Reading Hinv); auto.
    + rewrite Hc. discriminate.
    + rewrite Hq, Hc. cbn [weight]. lia.
  - (* ReadMessageReturns *)
    intros Hstep.
    assert (Hc : consumers p !! topic = Some Reading).
    { destruct (consumers p !! topic) as [[]|];
        destruct (mainpc p); try discriminate; reflexivity. }
    rewrite Hc in Hstep.
    destruct res as [err|m]; cbn [consumeIteration] in Hstep.
    + assert (consumers p' = <[topic := Returned]> (consumers p) /\
              mainpc p' = mainpc p /\ wg p' = wg p - 1) as (Hcs & Hpc & Hq).
      { unfold wg_Done in Hstep.
        destruct (wg p - 1 <? 0); destruct (mainpc p);
          injection Hstep as <-; auto. }
      apply (invariant_update p p' topic Returned Hinv); auto.
      * rewrite Hc. discriminate.
      * rewrite Hq, Hc. cbn [weight]. lia.
    + apply (invariant_frame p); auto;
        destruct (mainpc p); injection Hstep as <-; auto.
  - (* a request is served *)
    destruct (mainpc p) eqn:Hpc; try discriminate.
    destruct (serve r (world p)) as [resp w].
    intros [= <-]. apply (invariant_frame p); cbn; auto.
Qed.

Lemma invariant_run ls p p' :
  invariant p -> run env ls p = Some p' -> invariant p'.
Proof.
  revert p. induction ls as [|l ls IH]; intros p Hinv; cbn [run].
  - intros [= <-]. exact Hinv.
  - destruct (step env l p) as [q|] eqn:Hstep; [|discriminate].
    apply IH. exact (invariant_step l p q Hinv Hstep).
Qed.

Lemma invariant_reachable k p : reachable env k p -> invariant p.
Proof. intros [ls Hrun]. exact (invariant_run ls _ _ (invariant_start k) Hrun). Qed.

Lemma pending_ge_weight cs t : In t topics -> weight (cs !! t) <= pending cs.
Proof.
  intros Hin. pose proof (pending_insert cs t Returned Hin) as Hins.
  pose proof (pending_nonneg (<[t := Returned]> cs)). cbn [weight] in Hins. lia.
Qed.

(** What a read error does to the process. *)
Lemma read_error_step p p' topic err :
  invariant p ->
  step env (ReadMessageReturns topic (inl err)) p = Some p' ->
  consumers p !! topic = Some Reading /\
  p' = {| mainpc := mainpc p;
          consumers := <[topic := Returned]> (consumers p);
          wg := wg p - 1;
          exited := None;
          answered := answered p;
          world := logging p (Printf "Error reading message from topic %s: %v"
                                     [Str topic; Err err]) |}.
Proof.
  intros Hinv. unfold step. destruct (exited p); [discriminate|].
  intros Hstep.
  assert (Hc : consumers p !! topic = Some Reading).
  { destruct (consumers p !! topic) as [[]|];
      destruct (mainpc p); try discriminate; reflexivity. }
  split; [exact Hc|]. rewrite Hc in Hstep. cbn [consumeIteration] in Hstep.
  destruct Hinv as (Hwg & Hdom & _).
  assert (Hin : In topic topics) by (apply Hdom; rewrite Hc; discriminate).
  pose proof (pending_ge_weight (consumers p) topic Hin) as Hge.
  rewrite Hc in Hge. cbn [weight] in Hge.
  unfold wg_Done in Hstep.
  destruct (Z.ltb_spec (wg p - 1) 0); [lia|].
  destruct (mainpc p); injection Hstep as <-; reflexivity.
Qed.

Lemma step_rank l p p' t :
  invariant p -> step env l p = Some p' ->
  (rank (consumers p !! t) <= rank (consumers p' !! t))%nat.
Proof.
  intros Hinv. unfold step. destruct (exited p); [discriminate|].
  destruct l as [| [err|] | | topic | topic res | r].
  - destruct (mainpc p) as [[|topic rest]| |] eqn:Hpc; try discriminate;
      intros [= <-]; cbn [consumers]; [lia|].
    destruct Hinv as (_ & _ & Hmain). rewrite Hpc in Hmain.
    destruct Hmain as [_ Hnone].
    destruct (decide (topic = t)) as [<-|Hne].
    + rewrite lookup_insert_eq, (Hnone topic (or_introl eq_refl)). cbn. lia.
    + rewrite lookup_insert_ne by exact Hne. lia.
  - destruct (mainpc p); try discriminate. intros [= <-]. cbn. lia.
  - destruct (mainpc p); try discriminate. intros [= <-]. cbn. lia.
  - destruct (mainpc p); try discriminate.
    destruct (wg p =? 0); [|discriminate]. intros [= <-]. cbn. lia.
  - intros Hstep.
    assert (consumers p !! topic = Some Spawned /\
            consumers p' = <[topic := Reading]> (consumers p)) as [Hc ->].
    { destruct (consumers p !! topic) as [[]|];
        destruct (mainpc p); try discriminate;
        injection Hstep as <-; auto. }
    destruct (decide (topic = t)) as [<-|Hne].
    + rewrite lookup_insert_eq, Hc. cbn. lia.
    + rewrite lookup_insert_ne by exact Hne. lia.
  - intros Hstep.
    assert (Hc : consumers p !! topic = Some Reading).
    { destruct (consumers p !! topic) as [[]|];
        destruct (mainpc p); try discriminate; reflexivity. }
    rewrite Hc in Hstep.
    destruct res as [err|m]; cbn [consumeIteration] in Hstep.
    + assert (consumers p' = <[topic := Returned]> (consumers p)) as ->.
      { unfold wg_Done in Hstep.
        destruct (wg p - 1 <? 0); destruct (mainpc p);
          injection Hstep as <-; auto. }
      destruct (decide (topic = t)) as [<-|Hne].
      * rewrite lookup_insert_eq, Hc. cbn. lia.
      * rewrite lookup_insert_ne by exact Hne. lia.
    + assert (consumers p' = consumers p) as ->; [|lia].
      destruct (mainpc p); injection Hstep as <-; reflexivity.
  - destruct (mainpc p); try discriminate.
    destruct (serve r (world p)) as [resp w]. intros [= <-]. cbn. lia.
Qed.

Lemma run_rank ls p p' t :
  invariant p -> run env ls p = Some p' ->
  (rank (consumers p !! t) <= rank (consumers p' !! t))%nat.
Proof.
  revert p. induction ls as [|l ls IH]; intros p Hinv; cbn [run].
  - intros [= <-]. lia.
  - destruct (step env l p) as [q|] eqn:Hstep; [|discriminate].
    intros Hrun. pose proof (step_rank l p q t Hinv Hstep).
    pose proof (IH q (invariant_step l p q Hinv Hstep) Hrun). lia.
Qed.

(** A returned consumer stays returned. *)
Lemma returned_forever ls p p' t :
  invariant p -> consumers p !! t = Some Returned ->
  run env ls p = Some p' -> consumers p' !! t = Some Returned.
Proof.
  intros Hinv Hc Hrun. pose proof (run_rank ls p p' t Hinv Hrun) as Hr.
  rewrite Hc in Hr. destruct (consumers p' !! t) as [[]|]; cbn in Hr; (reflexivity || lia).
Qed.

(** C7. In a running process, when [r.ReadMessage] returns an error in
    the consumer loop of one topic, that loop ends and its goroutine
    returns; the process does not exit; [main] and the other consumers
    are where they were, so the other loops go on reading; the broker
    client of the producer is untouched and, if the server was serving,
    it goes on serving every request; and the returned consumer never
    reads again, whatever happens next (no reconnection). *)
Theorem read_error_ends_only_that_loop k p p' topic err :
  reachable env k p ->
  step env (ReadMessageReturns topic (inl err)) p = Some p' ->
  consumers p' !! topic = Some Returned /\
  exited p' = None /\
  mainpc p' = mainpc p /\
  (forall t, t <> topic -> consumers p' !! t = consumers p !! t) /\
  (forall t res, t <> topic -> consumers p !! t = Some Reading ->
     exists q, step env (ReadMessageReturns t res) p' = Some q) /\
  writer (world p') = writer (world p) /\
  (forall r, mainpc p = Serving ->
     exists q, step env (Request_ r) p' = Some q /\
               answered q = answered p' ++ [(r, fst (serve r (world p')))]) /\
  (forall ls q, run env ls p' = Some q ->
     consumers q !! topic = Some Returned /\
     step env (ConsumerRuns topic) q = None /\
     forall res, step env (ReadMessageReturns topic res) q = None).
Proof.
  intros Hreach Hstep.
  pose proof (invariant_reachable k p Hreach) as Hinv.
  pose proof (invariant_step _ _ _ Hinv Hstep) as Hinv'.
  destruct (read_error_step p p' topic err Hinv Hstep) as [Hc Hp'].
  assert (Hret : consumers p' !! topic = Some Returned).
  { rewrite Hp'. cbn [consumers]. apply lookup_insert_eq. }
  assert (Hother : forall t, t <> topic -> consumers p' !! t = consumers p !! t).
  { intros t Hne. rewrite Hp'. cbn [consumers]. apply lookup_insert_ne. congruence. }
  assert (Hex : exited p' = None) by (rewrite Hp'; reflexivity).
  assert (Hpc : mainpc p' = mainpc p) by (rewrite Hp'; reflexivity).
  split; [exact Hret|].
  split; [exact Hex|].
  split; [exact Hpc|].
  split; [exact Hother|].
  split; [|split; [|split]].
  - intros t res Hne Ht. unfold step.
    rewrite (Hother t Hne), Ht, Hex.
    destruct (consumeIteration t res) as [line []];
      [destruct (wg_Done p')|]; destruct (mainpc p'); eexists; reflexivity.
  - rewrite Hp'. reflexivity.
  - intros r Hserving. unfold step. rewrite Hex, Hpc, Hserving.
    destruct (serve r (world p')) as [resp w]. eexists. split; reflexivity.
  - intros ls q Hrun.
    pose proof (returned_forever ls p' q topic Hinv' Hret Hrun) as Hq.
    split; [exact Hq|]. unfold step. rewrite Hq.
    destruct (exited q); [split; [|intros res]; reflexivity|].
    split; [|intros res]; destruct (mainpc q) as [[|]| |]; reflexivity.
Qed.

Lemma run_startup k : run env startup (start k) = Some (serving env k).
Proof. vm_compute. reflexivity. Qed.

Lemma serving_reachable k : reachable env k (serving env k).
Proof. exists startup. apply run_startup. Qed.

Lemma serving_consumers k t :
  In t topics -> consumers (serving env k) !! t = Some Reading.
Proof. intros [<-|[<-|[<-|[]]]]; vm_compute; reflexivity. Qed.

(** After startup the three consumer loops are reading while [main] is
    blocked in [http.ListenAndServe], the WaitGroup counting 3; when
    [http.ListenAndServe] then returns an error, [log.Fatalf] ends the
    process with status 1 while the three loops are still reading, and
    nothing runs any more. *)
Lemma fatal_after_startup k err :
  exists p q,
    run env startup (start k) = Some p /\
    mainpc p = Serving /\ exited p = None /\ wg p = 3 /\
    (forall t, In t topics -> consumers p !! t = Some Reading) /\
    step env (ListenAndServeReturns (Some err)) p = Some q /\
    exited q = Some 1 /\
    (forall t, In t topics -> consumers q !! t = Some Reading) /\
    (forall l, step env l q = None).
Proof.
  exists (serving env k), (fatal env k err).
  split; [apply run_startup|].
  split; [reflexivity|]. split; [reflexivity|]. split; [reflexivity|].
  split; [apply serving_consumers|].
  split; [reflexivity|]. split; [reflexivity|].
  split; [apply serving_consumers|].
  intros l. reflexivity.
Qed.

(** The process has not ended otherwise than [exitsOK] says, and has
    started the consumer of every topic [main] is past. *)
Lemma exits_step l p p' :
  invariant p -> exitsOK p -> allStarted p ->
  step env l p = Some p' ->
  exitsOK p' /\ allStarted p'.
Proof.
  intros Hinv Hexit Hall Hstep.
  assert (Hnone : exited p = None).
  { unfold step in Hstep. destruct (exited p); [discriminate|reflexivity]. }
  assert (Hkeep : forall q,
             exited q = None ->
             (forall t, consumers q !! t = None -> consumers p !! t = None) ->
             mainpc q = mainpc p -> exitsOK q /\ allStarted q).
  { intros q Hq Hcs Hpc. split; [unfold exitsOK; rewrite Hq; exact I|].
    intros t Ht Hn. rewrite Hpc. apply Hall; [exact Ht|apply Hcs, Hn]. }
  assert (Hins : forall topic c t,
             <[topic := c]> (consumers p) !! t = None -> consumers p !! t = None).
  { intros topic c t Hn. destruct (decide (topic = t)) as [<-|Hne].
    - rewrite lookup_insert_eq in Hn. discriminate Hn.
    - rewrite lookup_insert_ne in Hn by exact Hne. exact Hn. }
  destruct l as [| [err|] | | topic | topic res | r].
  - (* MainRuns *)
    unfold step in Hstep. rewrite Hnone in Hstep.
    destruct (mainpc p) as [[|topic rest]| |] eqn:Hpc; try discriminate;
      injection Hstep as <-.
    + split; [unfold exitsOK; exact I|].
      intros t Ht Hn. cbn in Hn.
      destruct (Hall t Ht Hn) as (rest & Hrest & Hin).
      rewrite Hpc in Hrest. injection Hrest as <-. destruct Hin.
    + split; [unfold exitsOK; exact I|].
      intros t Ht Hn. cbn [consumers mainpc] in *.
      destruct (decide (topic = t)) as [<-|Hne];
        [rewrite lookup_insert_eq in Hn; discriminate Hn|].
      rewrite lookup_insert_ne in Hn by exact Hne.
      destruct (Hall t Ht Hn) as (rest' & Hrest & Hin).
      rewrite Hpc in Hrest. injection Hrest as <-. exists rest. split; [reflexivity|].
      destruct Hin as [Heq|Hin]; [contradiction|exact Hin].
  - (* ListenAndServe returns an error *)
    unfold step in Hstep. rewrite Hnone in Hstep.
    destruct (mainpc p) eqn:Hpc; try discriminate. injection Hstep as <-.
    split; [unfold exitsOK; cbn; left; split; reflexivity|].
    intros t Ht Hn. cbn in Hn.
    destruct (Hall t Ht Hn) as (rest & Hrest & _). congruence.
  - (* ListenAndServe returns nil *)
    unfold step in Hstep. rewrite Hnone in Hstep.
    destruct (mainpc p) eqn:Hpc; try discriminate. injection Hstep as <-.
    split; [unfold exitsOK; exact I|].
    intros t Ht Hn. cbn in Hn.
    destruct (Hall t Ht Hn) as (rest & Hrest & _). congruence.
  - (* wg.Wait returns *)
    unfold step in Hstep. rewrite Hnone in Hstep.
    destruct (mainpc p) eqn:Hpc; try discriminate.
    destruct (Z.eqb_spec (wg p) 0) as [Hz|]; [|discriminate].
    injection Hstep as <-.
    split; [unfold exitsOK; cbn; right; repeat split; exact Hz|].
    intros t Ht Hn. cbn in Hn.
    destruct (Hall t Ht Hn) as (rest & Hrest & _). congruence.
  - (* ConsumerRuns *)
    unfold step in Hstep. rewrite Hnone in Hstep.
    assert (Hp' : exited p' = None /\ mainpc p' = mainpc p /\
                  consumers p' = <[topic := Reading]> (consumers p)).
    { destruct (consumers p !! topic) as [[]|];
        destruct (mainpc p) as [[|]| |]; try discriminate;
        injection Hstep as <-; repeat split. }
    destruct Hp' as (Hq & Hpc & Hcs). apply Hkeep; [exact Hq| |exact Hpc].
    intros t. rewrite Hcs. apply Hins.
  - (* ReadMessageReturns *)
    destruct res as [err|m].
    + destruct (read_error_step p p' topic err Hinv Hstep) as [_ ->].
      apply Hkeep; [reflexivity| |reflexivity].
      intros t. cbn [consumers]. apply Hins.
    + unfold step in Hstep. rewrite Hnone in Hstep.
      assert (Hp' : exited p' = None /\ mainpc p' = mainpc p /\
                    consumers p' = consumers p).
      { destruct (consumers p !! topic) as [[]|];
          destruct (mainpc p) as [[|]| |]; try discriminate;
          injection Hstep as <-; repeat split. }
      destruct Hp' as (Hq & Hpc & Hcs). apply Hkeep; [exact Hq| |exact Hpc].
      intros t. rewrite Hcs. tauto.
  - (* a request is served *)
    unfold step in Hstep. rewrite Hnone in Hstep.
    destruct (mainpc p) eqn:Hpc; try discriminate.
    destruct (serve r (world p)) as [resp w]. injection Hstep as <-.
    split; [unfold exitsOK; exact I|].
    intros t Ht Hn. cbn in Hn.
    destruct (Hall t Ht Hn) as (rest & Hrest & _). congruence.
Qed.

Lemma exits_run ls : forall p p',
  invariant p -> exitsOK p -> allStarted p ->
  run env ls p = Some p' ->
  invariant p' /\ exitsOK p' /\ allStarted p'.
Proof.
  induction ls as [|l ls IH]; intros p p' Hinv Hexit Hall; cbn [run].
  - intros [= <-]. auto.
  - destruct (step env l p) as [q|] eqn:Hstep; [|discriminate].
    destruct (exits_step l p q Hinv Hexit Hall Hstep) as [Hexit' Hall'].
    apply IH; [exact (invariant_step l p q Hinv Hstep)|exact Hexit'|exact Hall'].
Qed.

Lemma exits_reachable k p :
  reachable env k p -> invariant p /\ exitsOK p /\ allStarted p.
Proof.
  intros [ls Hrun]. apply (exits_run ls (start k) p); [apply invariant_start| | |exact Hrun].
  - unfold exitsOK. exact I.
  - intros t Ht _. exists topics. split; [reflexivity|exact Ht].
Qed.

(** C8, as amended.  After startup the three consumer loops are reading
    while [main] is blocked in [http.ListenAndServe] and the server
    serves every request.  [main] does not wait for the loops there: in
    every reachable state in which it is blocked in
    [http.ListenAndServe], an error of that call ends the process with
    status 1 at once, whatever the consumers are doing.  [main] enters
    [wg.Wait] only when that call returns without error, and stays there
    as long as one loop has not returned; so the process ends with
    status 0 only after the three loops have returned, and it does not
    end in any other way than these two. *)
Theorem main_waits_unless_server_fails k :
  (exists p,
     run env startup (start k) = Some p /\
     mainpc p = Serving /\ exited p = None /\ wg p = 3 /\
     (forall t, In t topics -> consumers p !! t = Some Reading) /\
     (forall r, exists q, step env (Request_ r) p = Some q)) /\
  (forall p, reachable env k p ->
     (forall err, mainpc p = Serving -> exited p = None ->
        exists q, step env (ListenAndServeReturns (Some err)) p = Some q /\
                  exited q = Some 1 /\ consumers q = consumers p) /\
     (mainpc p = Waiting -> exited p = None ->
        (exists t, In t topics /\ consumers p !! t <> Some Returned) ->
        step env WaitReturns p = None) /\
     (exited p = Some 0 ->
        forall t, In t topics -> consumers p !! t = Some Returned) /\
     (forall code, exited p = Some code ->
        (code = 1 /\ mainpc p = Serving) \/ (code = 0 /\ mainpc p = Waiting)) /\
     (forall l q, step env l p = Some q -> mainpc q = Waiting ->
        mainpc p = Waiting \/
        (mainpc p = Serving /\ l = ListenAndServeReturns None))).
Proof.
  split.
  - exists (serving env k).
    split; [apply run_startup|].
    split; [reflexivity|]. split; [reflexivity|]. split; [reflexivity|].
    split; [apply serving_consumers|].
    intros r. unfold step. cbn [exited mainpc serving].
    destruct (serve r _) as [resp w]. eexists. reflexivity.
  - intros p Hreach.
    destruct (exits_reachable k p Hreach) as ((Hwg & _ & _) & Hexit & Hall).
    assert (Hlive : forall t, In t topics -> wg p = 0 -> mainpc p = Waiting ->
                      consumers p !! t = Some Returned).
    { intros t Ht Hz Hpc.
      pose proof (pending_ge_weight (consumers p) t Ht) as Hge.
      rewrite <- Hwg, Hz in Hge.
      destruct (consumers p !! t) as [[]|] eqn:Hc; cbn [weight] in Hge; try lia.
      - reflexivity.
      - destruct (Hall t Ht Hc) as (rest & Hrest & _). congruence. }
    split; [|split; [|split; [|split]]].
    + intros err Hpc Hex. unfold step. rewrite Hex, Hpc.
      eexists. split; [reflexivity|]. split; reflexivity.
    + intros Hpc Hex (t & Ht & Hnot). unfold step. rewrite Hex, Hpc.
      destruct (Z.eqb_spec (wg p) 0) as [Hz|_]; [|reflexivity].
      exfalso. apply Hnot. exact (Hlive t Ht Hz Hpc).
    + intros Hzero t Ht. unfold exitsOK in Hexit. rewrite Hzero in Hexit.
      destruct Hexit as [[Hone _]|(_ & Hpc & Hz)]; [discriminate Hone|].
      exact (Hlive t Ht Hz Hpc).
    + intros code Hcode. unfold exitsOK in Hexit. rewrite Hcode in Hexit.
      destruct Hexit as [[-> Hpc]|(-> & Hpc & _)]; [left|right]; auto.
    + intros l q Hstep Hq. unfold step in Hstep.
      destruct (exited p); [discriminate Hstep|].
      revert Hstep. destruct (mainpc p) as [rest| |] eqn:Hpc; intros Hstep;
        [exfalso|right; split; [reflexivity|]|left; reflexivity];
        destruct l as [| [err|] | | topic | topic res | r];
        try discriminate Hstep; try reflexivity.
      * destruct rest; injection Hstep as <-; discriminate Hq.
      * destruct (consumers p !! topic) as [[]|]; try discriminate Hstep.
        injection Hstep as <-. discriminate Hq.
      * destruct (consumers p !! topic) as [[]|]; try discriminate Hstep.
        destruct (consumeIteration topic res) as [line []];
          [destruct (wg_Done p) as [n panic]|];
          injection Hstep as <-; discriminate Hq.
      * injection Hstep as <-. discriminate Hq.
      * destruct (consumers p !! topic) as [[]|]; try discriminate Hstep.
        injection Hstep as <-. discriminate Hq.
      * destruct (consumers p !! topic) as [[]|]; try discriminate Hstep.
        destruct (consumeIteration topic res) as [line []];
          [destruct (wg_Done p) as [n panic]|];
          injection Hstep as <-; discriminate Hq.
      * destruct (serve r (world p)) as [resp w].
        injection Hstep as <-. discriminate Hq.
Qed.

End Goroutines.

(** *** The theorems on concrete requests *)

Section Witnesses.
Import Reference ReferenceSpec.

(** C3, witness: the request of the specification, POST
    /api/events/movie with movie 1, title X, action view, user 7. *)
Lemma accepted_event_is_published_witness :
  decodeAs "movie-events" (Body (postMovie viewBody)) =
    inr (PtrMovieEvent viewEvent) /\
  StatusCode (fst (serve (postMovie viewBody) brokerUp)) = 201 /\
  ResponseBody (fst (serve (postMovie viewBody) brokerUp)) =
    string_of_list_ascii
      ["{"; "034"; "s"; "t"; "a"; "t"; "u"; "s"; "034"; ":";
       "034"; "s"; "u"; "c"; "c"; "e"; "s"; "s"; "034"; "}"; "010"]%char /\
  published (trace (snd (serve (postMovie viewBody) brokerUp))) =
    [{| Topic := "movie-events"; Offset := 0; Key := ""; Value := viewBody |}] /\
  decodeAs "movie-events" viewBody = inr (PtrMovieEvent viewEvent).
Proof.
  assert (Hdec : decodeAs movieTopic (Body (postMovie viewBody)) =
                 inr (PtrMovieEvent viewEvent)) by (vm_compute; reflexivity).
  assert (Hmar : Marshal (PtrMovieEvent viewEvent) = inr viewBody)
    by (vm_compute; reflexivity).
  assert (Hwr : WriteMessages (produced movieTopic viewBody) (writer brokerUp) =
                (None, brokerAfterView)) by (vm_compute; reflexivity).
  destruct (accepted_event_is_published
              "/api/events/movie" movieTopic (postMovie viewBody) brokerUp
              (PtrMovieEvent viewEvent) viewBody brokerAfterView
              movieEndpoint eq_refl eq_refl Hdec Hmar Hwr reference_stable)
    as (Hst & Hbody & _ & _ & Hpub & _ & _ & _ & _ & Hsame).
  split; [exact Hdec|]. split; [exact Hst|]. split; [exact Hbody|].
  split; [exact Hpub|exact Hsame].
Defined.

(** C4, witness: POST /api/events/movie with each of the refused bodies
    (empty, not JSON, a member of the wrong type, an array). *)
Lemma undecodable_body_is_rejected_witness :
  Forall (fun body =>
            Refused movieTopic (Body (postMovie body)) /\
            StatusCode (fst (serve (postMovie body) brokerUp)) = 400 /\
            published (trace (snd (serve (postMovie body) brokerUp))) = [] /\
            writeAttempts (trace (snd (serve (postMovie body) brokerUp))) = [])
         refusedBodies.
Proof.
  assert (Hone : forall body,
             Body (postMovie body) = EmptyString \/
             Refused movieTopic (Body (postMovie body)) ->
             Refused movieTopic (Body (postMovie body)) /\
             StatusCode (fst (serve (postMovie body) brokerUp)) = 400 /\
             published (trace (snd (serve (postMovie body) brokerUp))) = [] /\
             writeAttempts (trace (snd (serve (postMovie body) brokerUp))) = []).
  { intros body Hbody.
    destruct (proj1 (undecodable_body_is_rejected
                       "/api/events/movie" movieTopic (postMovie body) brokerUp
                       movieEndpoint eq_refl eq_refl) Hbody)
      as (Hst & (err & Hdec & _) & Hatt & Hpub & _).
    split; [exists err; exact Hdec|]. split; [exact Hst|].
    split; [exact Hpub|exact Hatt]. }
  unfold refusedBodies.
  apply List.Forall_cons; [apply Hone; left; reflexivity|].
  repeat (apply List.Forall_cons;
          [apply Hone; right; eexists; vm_compute; reflexivity|]).
  apply List.Forall_nil.
Defined.

(** C4, counterexample to the statement as written: the body {} has none
    of the members of a movie event, yet POST /api/events/movie with that
    body is not answered 400: the decoder accepts it, leaving every
    member at its zero value, and the event is published to
    movie-events with status 201. *)
Lemma object_without_members_is_published :
  decodeAs "movie-events" (Body (postMovie "{}")) =
    inr (PtrMovieEvent zeroMovieEvent) /\
  StatusCode (fst (serve (postMovie "{}") brokerUp)) = 201 /\
  StatusCode (fst (serve (postMovie "{}") brokerUp)) <> 400 /\
  exists value,
    Marshal (PtrMovieEvent zeroMovieEvent) = inr value /\
    published (trace (snd (serve (postMovie "{}") brokerUp))) =
      [{| Topic := "movie-events"; Offset := 0; Key := ""; Value := value |}].
Proof.
  split; [vm_compute; reflexivity|]. split; [vm_compute; reflexivity|].
  split; [vm_compute; discriminate|].
  eexists. split; vm_compute; reflexivity.
Qed.

(** C5, witness: the request of the specification while the broker is
    not available. *)
Lemma failed_write_is_reported_once_witness :
  WriteMessages (produced movieTopic viewBody) (writer brokerDown) =
    (Some errUnavailable, writer brokerDown) /\
  StatusCode (fst (serve (postMovie viewBody) brokerDown)) = 500 /\
  writeAttempts (trace (snd (serve (postMovie viewBody) brokerDown))) =
    [produced movieTopic viewBody] /\
  published (trace (snd (serve (postMovie viewBody) brokerDown))) = [] /\
  writer (snd (serve (postMovie viewBody) brokerDown)) = writer brokerDown.
Proof.
  assert (Hdec : decodeAs movieTopic (Body (postMovie viewBody)) =
                 inr (PtrMovieEvent viewEvent)) by (vm_compute; reflexivity).
  assert (Hmar : Marshal (PtrMovieEvent viewEvent) = inr viewBody)
    by (vm_compute; reflexivity).
  assert (Hwr : WriteMessages (produced movieTopic viewBody) (writer brokerDown) =
                (Some errUnavailable, writer brokerDown)) by reflexivity.
  destruct (failed_write_is_reported_once
              "/api/events/movie" movieTopic (postMovie viewBody) brokerDown
              (PtrMovieEvent viewEvent) viewBody errUnavailable (writer brokerDown)
              movieEndpoint eq_refl eq_refl Hdec Hmar Hwr)
    as (Hst & Hatt & Hpub & Hk & _).
  split; [exact Hwr|]. split; [exact Hst|]. split; [exact Hatt|].
  split; [exact Hpub|exact Hk].
Defined.

(** C6, witness: GET /api/events/movie. *)
Lemma non_post_is_not_allowed_witness :
  StatusCode (fst (serve getMovie brokerUp)) = 405 /\
  snd (serve getMovie brokerUp) = brokerUp.
Proof.
  assert (Hm : Method getMovie <> MethodPost) by discriminate.
  destruct (non_post_is_not_allowed
              "/api/events/movie" movieTopic getMovie brokerUp
              movieEndpoint eq_refl Hm) as (_ & Hst & Hw & _).
  split; [exact Hst|exact Hw].
Defined.

(** C7, witness: after startup, the read of user-events fails. *)
Lemma read_error_ends_only_that_loop_witness :
  exists p',
    step ∅ (ReadMessageReturns userTopic (inl readFailure))
         (serving ∅ (writer brokerUp)) = Some p' /\
    consumers p' !! userTopic = Some Returned /\
    consumers p' !! movieTopic = Some Reading /\
    consumers p' !! paymentTopic = Some Reading /\
    mainpc p' = Serving /\
    exited p' = None.
Proof.
  destruct (step ∅ (ReadMessageReturns userTopic (inl readFailure))
                 (serving ∅ (writer brokerUp))) as [p'|] eqn:Hstep;
    [|vm_compute in Hstep; discriminate Hstep].
  exists p'. split; [reflexivity|].
  destruct (read_error_ends_only_that_loop
              ∅ (writer brokerUp) (serving ∅ (writer brokerUp)) p'
              userTopic readFailure (serving_reachable ∅ _) Hstep)
    as (Hret & Hex & Hpc & Hother & _).
  split; [exact Hret|].
  split; [rewrite Hother by discriminate; apply serving_consumers; cbn; tauto|].
  split; [rewrite Hother by discriminate; apply serving_consumers; cbn; tauto|].
  split; [rewrite Hpc; reflexivity|exact Hex].
Defined.

(** C8, witness of the amended statement: when the three loops have ended
    on a read error, [http.ListenAndServe] has returned without error and
    [wg.Wait] has returned, the process has ended with status 0 and every
    loop has returned. *)
Lemma main_waits_unless_server_fails_witness :
  exists p,
    run ∅ orderlyEnd (start (writer brokerUp)) = Some p /\
    exited p = Some 0 /\
    forall t, In t topics -> consumers p !! t = Some Returned.
Proof.
  destruct (run ∅ orderlyEnd (start (writer brokerUp))) as [p|] eqn:Hrun;
    [|vm_compute in Hrun; discriminate Hrun].
  assert (Hzero : exited p = Some 0).
  { vm_compute in Hrun. injection Hrun as <-. reflexivity. }
  exists p. split; [reflexivity|]. split; [exact Hzero|].
  destruct (main_waits_unless_server_fails ∅ (writer brokerUp)) as [_ Hall].
  destruct (Hall p (ex_intro _ orderlyEnd Hrun)) as (_ & _ & Hret & _).
  exact (Hret Hzero).
Defined.

(** C8, counterexample to the statement as written: the process is
    started and its three loops are reading; [http.ListenAndServe]
    returns an error (the port is in use); the process has then ended,
    with status 1, and none of the three loops has exited: all three were
    still reading, the WaitGroup counting 3. *)
Lemma server_failure_exits_before_consumers :
  exists p q,
    run ∅ startup (start (writer brokerUp)) = Some p /\
    (forall t, In t topics -> consumers p !! t = Some Reading) /\
    step ∅ (ListenAndServeReturns (Some listenFailure)) p = Some q /\
    exited q = Some 1 /\
    wg q = 3 /\
    (forall t, In t topics -> consumers q !! t = Some Reading) /\
    (forall t, In t topics -> consumers q !! t <> Some Returned).
Proof.
  destruct (fatal_after_startup ∅ (writer brokerUp) listenFailure)
    as (p & q & Hrun & _ & _ & _ & Hp & Hstep & Hex & Hq & _).
  exists p, q. split; [exact Hrun|]. split; [exact Hp|].
  split; [exact Hstep|]. split; [exact Hex|]. split.
  - rewrite run_startup in Hrun. injection Hrun as <-.
    vm_compute in Hstep. injection Hstep as <-. reflexivity.
  - split; [exact Hq|]. intros t Ht. rewrite (Hq t Ht). discriminate.
Qed.

End Witnesses.

End EventsSpec.

(** * Further properties of the proxy *)

Module ProxyExtra.
Import Proxy ProxySpec.

(** X1. [getEnv]: a variable that is set gives its value, also when that
    value is the empty text; a variable that is not set gives the fallback;
    setting another variable changes nothing. *)
Theorem getEnv_set_unset
    (env : gmap string string) (key other value fallback : string) :
  getEnv (<[key := value]> env) key fallback = value /\
  getEnv (delete key env) key fallback = fallback /\
  (other <> key ->
   getEnv (<[other := value]> env) key fallback = getEnv env key fallback).
Proof.
  unfold getEnv, Environ. split; [|split].
  - rewrite lookup_insert_eq. reflexivity.
  - rewrite lookup_delete_eq. reflexivity.
  - intros Hne. rewrite lookup_insert_ne by exact Hne. reflexivity.
Qed.

Lemma HasPrefix_append (p rest : string) : HasPrefix (p +:+ rest) p = true.
Proof.
  induction p as [|c p IH]; [destruct rest; reflexivity|].
  change (String c p +:+ rest) with (String c (p +:+ rest)).
  cbn [HasPrefix]. rewrite Ascii.eqb_refl, IH. reflexivity.
Qed.

Lemma HasPrefix_split (s p : string) :
  HasPrefix s p = true -> exists rest, s = p +:+ rest.
Proof.
  revert s. induction p as [|c p IH]; intros s Hs.
  - exists s. reflexivity.
  - destruct s as [|a s]; [discriminate Hs|]. cbn [HasPrefix] in Hs.
    apply andb_prop in Hs as [Ha Hs]. apply Ascii.eqb_eq in Ha as ->.
    destruct (IH s Hs) as [rest ->]. exists rest. reflexivity.
Qed.

Section Startup.
Context {URL : Type} (url_Parse : string -> error + URL).

(** X2. [main] ends in [log.Fatalf] before serving exactly when one of
    the three upstream URLs does not parse: neither the port, nor the
    migration flag, nor the percentage can stop it there.  When the three
    URLs parse it calls [http.ListenAndServe] on the colon and the port;
    an error of that call (a port that cannot be listened on) ends the
    process with status 1 after the line Failed to start server. *)
Theorem startup_fatal_iff_malformed_url (env : Environ) :
  ((exists log, main url_Parse env = Fatal log) <->
   Exists (malformed url_Parse) (upstreamURLs env)) /\
  ((exists addr cfg log, main url_Parse env = ListenAndServe addr cfg log) <->
   Forall (wellFormed url_Parse) (upstreamURLs env)) /\
  (forall log listenErr,
     main url_Parse env = Fatal log ->
     finish (main url_Parse env) listenErr = {| exitStatus := 1; mainLog := log |}) /\
  (forall addr cfg log,
     main url_Parse env = ListenAndServe addr cfg log ->
     addr = ":" +:+ getEnv env "PORT" "8000" /\
     finish (main url_Parse env) None = {| exitStatus := 0; mainLog := log |} /\
     forall err,
       finish (main url_Parse env) (Some err) =
       {| exitStatus := 1;
          mainLog := log ++ [Printf "Failed to start server: %v" [Err err]] |}).
Proof.
  assert (Hcases : Forall (wellFormed url_Parse) (upstreamURLs env) \/
                   Exists (malformed url_Parse) (upstreamURLs env)).
  { unfold upstreamURLs, wellFormed, malformed.
    destruct (url_Parse (getEnv env "MONOLITH_URL" "http://localhost:8080"))
      as [e1|u1] eqn:H1;
      [right; apply Exists_cons_hd; eauto|].
    destruct (url_Parse (getEnv env "MOVIES_SERVICE_URL" "http://localhost:8081"))
      as [e2|u2] eqn:H2;
      [right; apply Exists_cons_tl, Exists_cons_hd; eauto|].
    destruct (url_Parse (getEnv env "EVENTS_SERVICE_URL" "http://localhost:8082"))
      as [e3|u3] eqn:H3;
      [right; do 2 apply Exists_cons_tl; apply Exists_cons_hd; eauto|].
    left. repeat (apply List.Forall_cons; [eauto|]). apply List.Forall_nil. }
  split; [split|split; [split|split]].
  - intros [log Hlog]. destruct Hcases as [Hwf|Hex]; [|exact Hex].
    destruct (main_listens url_Parse env Hwf) as (cfg & log' & Hmain & _).
    congruence.
  - apply main_fatal.
  - intros (addr & cfg & log & Hmain). destruct Hcases as [Hwf|Hex]; [exact Hwf|].
    destruct (main_fatal url_Parse env Hex) as [log' Hlog]. congruence.
  - intros Hwf. destruct (main_listens url_Parse env Hwf) as (cfg & log & Hmain & _).
    eauto.
  - intros log listenErr Hmain. rewrite Hmain. reflexivity.
  - intros addr cfg log Hmain.
    split; [|rewrite Hmain; split; [|intros err]; reflexivity].
    destruct Hcases as [Hwf|Hex].
    + destruct (main_listens url_Parse env Hwf) as (cfg' & log' & Hmain' & _).
      congruence.
    + destruct (main_fatal url_Parse env Hex) as [log' Hlog]. congruence.
Qed.

(** X3. When startup is fatal, the last line logged names the first URL
    that does not parse, in the order monolith, movies-service,
    events-service; the URLs after it are not parsed.  The warning about
    the percentage, if any, comes before. *)
Theorem fatal_names_first_malformed_url (env : Environ) :
  let mono := getEnv env "MONOLITH_URL" "http://localhost:8080" in
  let movies := getEnv env "MOVIES_SERVICE_URL" "http://localhost:8081" in
  let events := getEnv env "EVENTS_SERVICE_URL" "http://localhost:8082" in
  (forall err, url_Parse mono = inl err ->
     main url_Parse env =
     Fatal (percentWarning env ++
            [Printf "Failed to parse MONOLITH_URL: %v" [Err err]])) /\
  (forall u err, url_Parse mono = inr u -> url_Parse movies = inl err ->
     main url_Parse env =
     Fatal (percentWarning env ++
            [Printf "Failed to parse MOVIES_SERVICE_URL: %v" [Err err]])) /\
  (forall u u' err,
     url_Parse mono = inr u -> url_Parse movies = inr u' ->
     url_Parse events = inl err ->
     main url_Parse env =
     Fatal (percentWarning env ++
            [Printf "Failed to parse EVENTS_SERVICE_URL: %v" [Err err]])).
Proof.
  cbv zeta. unfold main, percentWarning.
  split; [|split].
  - intros err H1. rewrite H1. destruct (Atoi _); reflexivity.
  - intros u err H1 H2. rewrite H1, H2. destruct (Atoi _); reflexivity.
  - intros u u' err H1 H2 H3. rewrite H1, H2, H3. destruct (Atoi _); reflexivity.
Qed.

End Startup.

(** X3, witness: the movies-service and events-service URLs both hold a
    line feed; the fatal line names MOVIES_SERVICE_URL. *)
Lemma fatal_names_first_malformed_url_witness :
  main parseURL envBadMoviesURL =
  Fatal [Printf "Failed to parse MOVIES_SERVICE_URL: %v"
                [Err (ErrorString "net/url: invalid control character in URL")]].
Proof.
  assert (H1 : parseURL (getEnv envBadMoviesURL "MONOLITH_URL" "http://localhost:8080")
               = inr "http://localhost:8080") by (vm_compute; reflexivity).
  assert (H2 : parseURL (getEnv envBadMoviesURL "MOVIES_SERVICE_URL" "http://localhost:8081")
               = inl (ErrorString "net/url: invalid control character in URL"))
    by (vm_compute; reflexivity).
  rewrite (proj1 (proj2 (fatal_names_first_malformed_url parseURL envBadMoviesURL))
             _ _ H1 H2).
  vm_compute. reflexivity.
Defined.

Section Routing.
Context {G : Type} `{RandSource G}.
Implicit Types (cfg : Config) (r : Request) (w : World G).

(** A request that is forwarded was handed to the handler of the pattern
    ["/"]. *)
Lemma forwarded_root cfg r w o :
  fst (serve cfg r w) = ProxyTo o ->
  canonical (Method r) (Path r) = true /\
  Path r <> "/health" /\
  HasPrefix (Path r) "/" = true.
Proof.
  rewrite serve_cases.
  destruct (canonical (Method r) (Path r)); [|discriminate].
  destruct (String.eqb_spec (Path r) "/health"); [discriminate|].
  destruct (HasPrefix (Path r) "/"); [|discriminate].
  intros _. split; [reflexivity|]. split; [assumption|reflexivity].
Qed.

(** X4. What it takes for a request to reach movies-service, from the
    environment on: GRADUAL_MIGRATION is set to exactly true (lower case),
    MOVIES_MIGRATION_PERCENT is set to an integer of at least 1 that
    exceeds the number drawn, and the path begins with /api/movies.  With
    either variable unset, movies-service gets no request at all. *)
Theorem movies_service_needs_flag_and_percent
    {URL : Type} (url_Parse : string -> error + URL)
    (env : Environ) (addr : string) cfg (log : list (LogLine error)) r w :
  main url_Parse env = ListenAndServe addr cfg log ->
  fst (serve cfg r w) = ProxyTo MoviesService ->
  env !! "GRADUAL_MIGRATION" = Some "true" /\
  (exists value n,
     env !! "MOVIES_MIGRATION_PERCENT" = Some value /\
     Atoi value = inr n /\ 1 <= n /\ nextRoll w < n) /\
  HasPrefix (Path r) "/api/movies" = true.
Proof.
  intros Hmain Hserve.
  destruct (forwarded_root _ _ _ _ Hserve) as (Hc & Hne & Hr).
  rewrite (serve_root _ _ _ Hc Hne Hr), rootHandler_selected in Hserve.
  injection Hserve as Hsel. unfold selected in Hsel.
  destruct (HasPrefix (Path r) "/api/movies") eqn:Hp;
    [|destruct (HasPrefix (Path r) "/api/events"); discriminate Hsel].
  destruct (gradualMigrationEnabled cfg) eqn:Hen; [|discriminate Hsel].
  cbn [andb] in Hsel.
  destruct (Z.ltb_spec (nextRoll w) (migrationPercent cfg)) as [Hlt|];
    [|discriminate Hsel].
  destruct (main_percent url_Parse _ _ _ _ Hmain) as [Hpct Hflag].
  pose proof (nextRoll_range w) as Hroll.
  rewrite Hen in Hflag. symmetry in Hflag. apply String.eqb_eq in Hflag.
  split; [|split; [|reflexivity]].
  - unfold getEnv in Hflag.
    destruct (env !! "GRADUAL_MIGRATION") as [v|]; [congruence|discriminate Hflag].
  - rewrite Hpct in Hlt. unfold percentOf, getEnv in Hlt.
    destruct (env !! "MOVIES_MIGRATION_PERCENT") as [value|].
    + exists value. destruct (Atoi value) as [err|n]; [lia|].
      exists n. repeat split; (reflexivity || lia).
    + change (Atoi "0") with (@inr error Z 0) in Hlt. cbv iota in Hlt. lia.
Qed.

(** X5. Events-service receives exactly the requests the mux hands to
    the handlers (it does not redirect them) whose path is /api/events
    followed by any bytes (a byte prefix, not a path segment:
    /api/eventsource is one of them), whatever the configuration; such a
    request draws no number. *)
Theorem events_service_iff_prefix cfg r w :
  (fst (serve cfg r w) = ProxyTo EventsService <->
   canonical (Method r) (Path r) = true /\
   exists rest, Path r = "/api/events" +:+ rest) /\
  (fst (serve cfg r w) = ProxyTo EventsService ->
   rng (snd (serve cfg r w)) = rng w).
Proof.
  assert (Hfwd : (exists rest, Path r = "/api/events" +:+ rest) ->
                 HasPrefix (Path r) "/api/events" = true /\
                 HasPrefix (Path r) "/api/movies" = false /\
                 Path r <> "/health" /\
                 HasPrefix (Path r) "/" = true).
  { intros [rest Hrest]. rewrite Hrest. split; [|split; [|split]].
    - apply HasPrefix_append.
    - reflexivity.
    - discriminate.
    - reflexivity. }
  assert (Hback : fst (serve cfg r w) = ProxyTo EventsService ->
                  canonical (Method r) (Path r) = true /\
                  HasPrefix (Path r) "/api/events" = true /\
                  HasPrefix (Path r) "/api/movies" = false /\
                  Path r <> "/health" /\
                  HasPrefix (Path r) "/" = true).
  { intros Hserve. destruct (forwarded_root _ _ _ _ Hserve) as (Hc & Hne & Hr).
    rewrite (serve_root _ _ _ Hc Hne Hr), rootHandler_selected in Hserve.
    injection Hserve as Hsel. unfold selected in Hsel.
    destruct (HasPrefix (Path r) "/api/movies");
      [destruct (gradualMigrationEnabled cfg && _); discriminate Hsel|].
    destruct (HasPrefix (Path r) "/api/events"); [|discriminate Hsel].
    split; [exact Hc|]. split; [reflexivity|]. split; [reflexivity|].
    split; [exact Hne|exact Hr]. }
  split; [split|].
  - intros Hserve. destruct (Hback Hserve) as (Hc & He & _).
    split; [exact Hc|]. apply HasPrefix_split, He.
  - intros [Hc Hex]. destruct (Hfwd Hex) as (He & Hm & Hne & Hr).
    rewrite (serve_root _ _ _ Hc Hne Hr), rootHandler_selected.
    unfold selected. rewrite Hm, He. reflexivity.
  - intros Hserve. destruct (Hback Hserve) as (Hc & He & Hm & Hne & Hr).
    rewrite (serve_root _ _ _ Hc Hne Hr), rootHandler_rng, Hm. reflexivity.
Qed.

(** X6. What the handlers of [main] log for a request, up to the point
    where it is handed to a reverse proxy.  A request that is forwarded
    has added exactly two lines by then: the incoming line with its
    method and path, then the routing line of the origin it is handed to.
    Every request the mux hands to the handlers, whose path begins with a
    slash and is not /health, is such a request.  A request to /health,
    whatever its method, and a request the mux redirects add no line and
    draw no number. *)
Theorem request_log_names_destination cfg r w :
  (Path r = "/health" -> snd (serve cfg r w) = w) /\
  (canonical (Method r) (Path r) = false -> snd (serve cfg r w) = w) /\
  (forall o, fst (serve cfg r w) = ProxyTo o ->
     logged (snd (serve cfg r w)) =
     logged w ++ [incomingLog r; routeLog (Path r) o]) /\
  (canonical (Method r) (Path r) = true ->
   Path r <> "/health" ->
   HasPrefix (Path r) "/" = true ->
   exists o, fst (serve cfg r w) = ProxyTo o).
Proof.
  assert (Hroot : exists o, fst (rootHandler cfg r w) = ProxyTo o /\
            logged (snd (rootHandler cfg r w)) =
            logged w ++ [incomingLog r; routeLog (Path r) o]).
  { unfold rootHandler, migrationRoll, rand_Intn, routeLog, incomingLog, bind, ret.
    cbn [log_Printf rng logged fst snd].
    destruct (HasPrefix (Path r) "/api/movies").
    + destruct (gradualMigrationEnabled cfg); cbn [rng logged].
      * destruct (Intn 100 (rng w)) as [v g]. cbn [logged].
        destruct (v <? migrationPercent cfg); eexists; cbn [fst snd logged];
          (split; [reflexivity|]); rewrite <- app_assoc; reflexivity.
      * eexists. cbn [fst snd logged]. split; [reflexivity|].
        rewrite <- app_assoc. reflexivity.
    + destruct (HasPrefix (Path r) "/api/events"); eexists; cbn [fst snd logged];
        (split; [reflexivity|]); rewrite <- app_assoc; reflexivity. }
  split; [|split; [|split]].
  - intros Hp. unfold serve, handler. rewrite Hp.
    rewrite MuxSpec.canonical_clean by reflexivity. reflexivity.
  - intros Hc. rewrite (serve_redirect _ _ _ Hc). reflexivity.
  - intros o Ho. destruct (forwarded_root _ _ _ _ Ho) as (Hc & Hne & Hr).
    rewrite (serve_root _ _ _ Hc Hne Hr) in Ho |- *.
    destruct Hroot as (o' & Ho' & Hlog). rewrite Hlog. congruence.
  - intros Hc Hne Hr. rewrite (serve_root _ _ _ Hc Hne Hr).
    destruct Hroot as (o & Ho & _). exists o. exact Ho.
Qed.

(** X7. Routing of a movies request the mux hands to the handlers looks
    at nothing but the prefix of the path and the number drawn: two such
    requests served in the same world get the same origin, whatever their
    methods and the rest of their paths; and served one after the other
    with migration enabled, the second is decided by the draw that
    follows the draw of the first. *)
Theorem successive_movies_requests cfg r1 r2 w :
  HasPrefix (Path r1) "/api/movies" = true ->
  HasPrefix (Path r2) "/api/movies" = true ->
  canonical (Method r1) (Path r1) = true ->
  canonical (Method r2) (Path r2) = true ->
  fst (serve cfg r1 w) = fst (serve cfg r2 w) /\
  (gradualMigrationEnabled cfg = true ->
   let w1 := snd (serve cfg r1 w) in
   nextRoll w1 = fst (Intn 100 (snd (Intn 100 (rng w)))) /\
   fst (serve cfg r2 w1) =
   ProxyTo (if nextRoll w1 <? migrationPercent cfg
            then MoviesService else Monolith)).
Proof.
  intros H1 H2 Hc1 Hc2. split.
  - rewrite !movies_selected by assumption. reflexivity.
  - intros Hen. cbv zeta.
    assert (Hrng : rng (snd (serve cfg r1 w)) = snd (Intn 100 (rng w))).
    { rewrite (serve_movies _ _ _ H1 Hc1), rootHandler_rng, H1, Hen. reflexivity. }
    split.
    + unfold nextRoll. rewrite Hrng. reflexivity.
    + rewrite (movies_selected _ _ _ H2 Hc2), Hen. reflexivity.
Qed.

End Routing.

(** X2, witness: with the default environment [main] calls
    [http.ListenAndServe] on :8000, and an error of that call is fatal. *)
Lemma startup_fatal_iff_malformed_url_witness :
  exists cfg log,
    main parseURL ∅ = ListenAndServe ":8000" cfg log /\
    finish (main parseURL ∅) (Some (ErrorString "listen tcp :8000: bind: address already in use")) =
    {| exitStatus := 1;
       mainLog := log ++ [Printf "Failed to start server: %v"
                            [Err (ErrorString "listen tcp :8000: bind: address already in use")]] |}.
Proof.
  destruct (startup_fatal_iff_malformed_url parseURL ∅) as (_ & Hserves & _ & Hlisten).
  assert (Hwf : Forall (wellFormed parseURL) (upstreamURLs ∅)).
  { repeat constructor; eexists; vm_compute; reflexivity. }
  destruct (proj2 Hserves Hwf) as (addr & cfg & log & Hmain).
  destruct (Hlisten addr cfg log Hmain) as (Haddr & _ & Herr).
  exists cfg, log. split; [rewrite Hmain, Haddr; reflexivity|apply Herr].
Defined.

(** X4, witness: with GRADUAL_MIGRATION=true and percentage 250, GET
    /api/movies/42 reaches movies-service. *)
Lemma movies_service_needs_flag_and_percent_witness :
  exists cfg log,
    main parseURL envPercent250 = ListenAndServe ":8000" cfg log /\
    fst (serve cfg getMovies world0) = ProxyTo MoviesService /\
    envPercent250 !! "GRADUAL_MIGRATION" = Some "true" /\
    HasPrefix (Path getMovies) "/api/movies" = true.
Proof.
  assert (Hwf : Forall (wellFormed parseURL) (upstreamURLs envPercent250)).
  { repeat constructor; eexists; vm_compute; reflexivity. }
  destruct (main_listens parseURL envPercent250 Hwf) as (cfg & log & Hmain & _).
  destruct (main_percent _ _ _ _ _ Hmain) as [Hpct Hen].
  assert (Hserve : fst (serve cfg getMovies world0) = ProxyTo MoviesService).
  { rewrite (movies_selected cfg getMovies world0 eq_refl eq_refl), Hen, Hpct.
    vm_compute. reflexivity. }
  exists cfg, log. split; [exact Hmain|]. split; [exact Hserve|].
  destruct (movies_service_needs_flag_and_percent
              parseURL envPercent250 _ cfg log getMovies world0 Hmain Hserve)
    as (Hflag & _ & Hp).
  split; [exact Hflag|exact Hp].
Defined.

(** X5, witness: GET /api/eventsource goes to events-service, and GET
    //api/events does not. *)
Lemma events_service_iff_prefix_witness :
  fst (serve (cfgOf true 100) getEventsFeed world0) = ProxyTo EventsService /\
  fst (serve (cfgOf true 100) getEventsDoubleSlash world0) <> ProxyTo EventsService.
Proof.
  destruct (events_service_iff_prefix (cfgOf true 100) getEventsFeed world0)
    as [[_ Hto] _].
  destruct (events_service_iff_prefix (cfgOf true 100) getEventsDoubleSlash world0)
    as [[Hfrom _] _].
  split.
  - apply Hto. split; [reflexivity|]. exists "ource". reflexivity.
  - intros Hserve. destruct (Hfrom Hserve) as [Hc _]. discriminate Hc.
Defined.

(** X6, witness: GET /api/eventsource. *)
Lemma request_log_names_destination_witness :
  fst (serve (cfgOf true 100) getEventsFeed world0) = ProxyTo EventsService /\
  logged (snd (serve (cfgOf true 100) getEventsFeed world0)) =
    [incomingLog getEventsFeed; Printf "Routing to events-service" []].
Proof.
  assert (Hev : fst (serve (cfgOf true 100) getEventsFeed world0) =
                ProxyTo EventsService) by reflexivity.
  split; [exact Hev|].
  exact (proj1 (proj2 (proj2 (request_log_names_destination
                                (cfgOf true 100) getEventsFeed world0)))
           EventsService Hev).
Defined.

(** X7, witness: GET /api/movies/42 then POST /api/movies at 50 percent. *)
Lemma successive_movies_requests_witness :
  fst (serve (cfgOf true 50) getMovies world0) =
  fst (serve (cfgOf true 50) postMovies world0) /\
  nextRoll (snd (serve (cfgOf true 50) getMovies world0)) =
  fst (Intn 100 (snd (Intn 100 (rng world0)))).
Proof.
  destruct (successive_movies_requests (cfgOf true 50) getMovies postMovies world0
              eq_refl eq_refl eq_refl eq_refl) as [Hsame Hnext].
  split; [exact Hsame|]. exact (proj1 (Hnext eq_refl)).
Defined.

End ProxyExtra.

(** * Further properties of the events service *)

Module EventsExtra.
Import Events EventsSpec.

#[local] Arguments String.append !s1 s2 : simpl nomatch.

(** ** The broker list *)

Lemma Split_nonempty (s : string) (sep : ascii) : Split s sep <> [].
Proof.
  destruct s as [|c s]; cbn [Split]; [discriminate|].
  destruct (Ascii.eqb c sep); [discriminate|].
  destruct (Split s sep); discriminate.
Qed.

Lemma Join_Split (s : string) (sep : ascii) : Join (Split s sep) sep = s.
Proof.
  induction s as [|c s IH]; [reflexivity|]. cbn [Split].
  pose proof (Split_nonempty s sep) as Hne.
  destruct (Ascii.eqb_spec c sep) as [->|Hc].
  - destruct (Split s sep) as [|piece pieces]; [contradiction|].
    cbn [Join String.append]. cbn [Join] in IH. rewrite IH. reflexivity.
  - destruct (Split s sep) as [|piece pieces]; [contradiction|].
    destruct pieces as [|piece' pieces]; cbn [Join String.append] in *;
      rewrite IH; reflexivity.
Qed.

Lemma length_Split (s : string) (sep : ascii) :
  length (Split s sep) = S (Count s sep).
Proof.
  induction s as [|c s IH]; [reflexivity|]. cbn [Split Count].
  pose proof (Split_nonempty s sep) as Hne.
  destruct (Ascii.eqb c sep); [cbn [length]; rewrite IH; reflexivity|].
  destruct (Split s sep) as [|piece pieces]; [contradiction|]. exact IH.
Qed.

Lemma Split_pieces (s : string) (sep : ascii) :
  Forall (fun piece => Count piece sep = O) (Split s sep).
Proof.
  induction s as [|c s IH]; [repeat constructor|]. cbn [Split].
  destruct (Ascii.eqb c sep) eqn:Hc; [constructor; [reflexivity|exact IH]|].
  destruct (Split s sep) as [|piece pieces]; [repeat constructor; cbn; rewrite Hc; reflexivity|].
  apply Forall_cons_1 in IH as [Hpiece Hpieces].
  constructor; [cbn [Count]; rewrite Hc; exact Hpiece|exact Hpieces].
Qed.

(** X16. The broker list of [main] and [consume] is the value of
    KAFKA_BROKERS cut at every comma and nothing else: joining the
    addresses with commas gives the value back (nothing is trimmed or
    dropped), no address holds a comma, and there is one address more
    than there are commas, so the list is never empty (an empty value
    gives one empty address, not the default). *)
Theorem brokers_are_the_comma_separated_value (env : Environ) :
  let kafkaBrokers := getEnv env "KAFKA_BROKERS" "localhost:9092" in
  Join (brokers env) "," = kafkaBrokers /\
  length (brokers env) = S (Count kafkaBrokers ",") /\
  Forall (fun addr => Count addr "," = O) (brokers env).
Proof.
  cbv zeta. unfold brokers. split; [apply Join_Split|].
  split; [apply length_Split|apply Split_pieces].
Qed.

(** ** The producer *)

Section Producer.
Context {W : Type} `{JSON} `{KafkaWriter W} `{Redirection}.
Implicit Types (r : Request) (w : World W) (topic : string).

Lemma newEventData_known topic :
  In topic topics <-> newEventData topic <> None.
Proof.
  unfold newEventData, topics. split.
  - intros [<-|[<-|[<-|[]]]]; discriminate.
  - destruct (String.eqb_spec topic movieTopic) as [->|]; [intros _; cbn; tauto|].
    destruct (String.eqb_spec topic userTopic) as [->|]; [intros _; cbn; tauto|].
    destruct (String.eqb_spec topic paymentTopic) as [->|]; [intros _; cbn; tauto|].
    intros Hn. contradiction.
Qed.

(** X8. [handleEvent] for a topic that is none of the three constants
    answers a POST with 400 and the text Unknown event type, before it
    reads the body: nothing is decoded, written or logged. *)
Theorem unknown_topic_is_rejected topic r w :
  Method r = MethodPost ->
  ~ In topic topics ->
  fst (handleEvent topic r w) = http_Error "Unknown event type" 400 /\
  snd (handleEvent topic r w) = w.
Proof.
  intros Hm Hnot. unfold handleEvent. rewrite Hm, String.eqb_refl. cbn [negb].
  destruct (newEventData topic) as [target|] eqn:Ht.
  - exfalso. apply Hnot, newEventData_known. rewrite Ht. discriminate.
  - split; reflexivity.
Qed.

(** X9. When the decoded structure cannot be marshalled, the answer is
    500 with the text of that error; the body has been decoded once, and
    the broker client is not called. *)
Theorem marshal_failure_is_internal_error
    topic r w (eventData : EventData) (err : error) :
  Method r = MethodPost ->
  In topic topics ->
  decodeAs topic (Body r) = inr eventData ->
  Marshal eventData = inl err ->
  fst (handleEvent topic r w) = http_Error (Error err) 500 /\
  trace (snd (handleEvent topic r w)) = trace w ++ [DecodedBody (Body r)] /\
  writer (snd (handleEvent topic r w)) = writer w.
Proof.
  intros Hm Hin Hdec Hmar.
  rewrite (handleEvent_post topic r w Hm Hin), Hdec, Hmar.
  repeat split.
Qed.

(** X10. Whatever the topic, the request and the world, [handleEvent]
    only adds to the trace; it decodes the body at most once and calls
    the broker client at most once, with a message of its own topic; its
    status is 201, 400, 405 or 500; and it is 201 exactly when that one
    write succeeded, nothing being published otherwise. *)
Theorem handler_writes_at_most_once topic r w :
  exists es,
    trace (snd (handleEvent topic r w)) = trace w ++ es /\
    (length (decodes es) <= 1)%nat /\
    (writeAttempts es = [] \/
     exists eventBytes, writeAttempts es = [produced topic eventBytes]) /\
    In (StatusCode (fst (handleEvent topic r w))) [201; 400; 405; 500] /\
    (StatusCode (fst (handleEvent topic r w)) = 201 ->
     exists eventBytes, published es = [produced topic eventBytes]) /\
    (StatusCode (fst (handleEvent topic r w)) <> 201 -> published es = []).
Proof.
  unfold handleEvent.
  destruct (String.eqb (Method r) MethodPost); cbn [negb];
    [|exists []; cbn; rewrite app_nil_r;
      repeat split; auto; try tauto; intros; discriminate].
  destruct (newEventData topic) as [target|];
    [|exists []; cbn; rewrite app_nil_r;
      repeat split; auto; try tauto; intros; discriminate].
  cbv [bind json_Decode writer_WriteMessages log_Printf ret writer trace].
  destruct (Decode (Body r) target) as [err|eventData];
    [exists [DecodedBody (Body r)]; cbn;
     repeat split; auto; try tauto; intros; discriminate|].
  destruct (Marshal eventData) as [err|eventBytes];
    [exists [DecodedBody (Body r)]; cbn;
     repeat split; auto; try tauto; intros; discriminate|].
  destruct (WriteMessages _ _) as [[err|] k]; cbn [fst snd].
  - eexists. split; [rewrite <- !app_assoc; reflexivity|]. cbn.
    split; [lia|]. split; [right; eexists; reflexivity|].
    split; [tauto|]. split; [intros; discriminate|reflexivity].
  - eexists. split; [rewrite <- !app_assoc; reflexivity|]. cbn.
    split; [lia|]. split; [right; eexists; reflexivity|].
    split; [tauto|]. split; [intros _; eexists; reflexivity|].
    intros Hne. contradiction.
Qed.

(** X11. A request whose path is none of the three event endpoints never
    reaches the decoder or the broker client and logs nothing.  When the
    mux hands it to a handler, /api/events/health is answered 200 with
    status true whatever the method and the state of the broker, and
    every other path (an event endpoint followed by a slash, for one) is
    answered 404.  When the mux does not (the path begins with a slash
    and is not canonical, as with a doubled slash), the answer is its
    redirect to the canonical path. *)
Theorem other_paths_leave_the_broker_alone r w :
  (forall topic, ~ In (Path r, topic) eventEndpoints) ->
  snd (serve r w) = w /\
  (canonical (Method r) (Path r) = true ->
     (Path r = "/api/events/health" ->
        StatusCode (fst (serve r w)) = 200 /\
        ResponseBody (fst (serve r w)) =
          string_of_list_ascii
            ["{"; "034"; "s"; "t"; "a"; "t"; "u"; "s"; "034"; ":";
             "t"; "r"; "u"; "e"; "}"; "010"]%char) /\
     (Path r <> "/api/events/health" ->
        StatusCode (fst (serve r w)) = 404)) /\
  (canonical (Method r) (Path r) = false ->
   HasPrefix (Path r) "/" = true ->
     fst (serve r w) = RedirectHandler (cleanPath (Path r)) r /\
     300 <= StatusCode (fst (serve r w)) < 400).
Proof.
  intros Hnot. unfold serve.
  destruct (canonical (Method r) (Path r)).
  - unfold handler.
    destruct (String.eqb_spec (Path r) "/api/events/movie") as [Hp|_];
      [exfalso; apply (Hnot movieTopic); rewrite Hp; cbn; tauto|].
    destruct (String.eqb_spec (Path r) "/api/events/user") as [Hp|_];
      [exfalso; apply (Hnot userTopic); rewrite Hp; cbn; tauto|].
    destruct (String.eqb_spec (Path r) "/api/events/payment") as [Hp|_];
      [exfalso; apply (Hnot paymentTopic); rewrite Hp; cbn; tauto|].
    split; [|split; [intros _|intros Hc; discriminate Hc]].
    + destruct (String.eqb (Path r) "/api/events/health"); reflexivity.
    + destruct (String.eqb_spec (Path r) "/api/events/health") as [Hp|Hp].
      * split; [intros _; split; reflexivity|]. intros Hne. contradiction.
      * split; [intros Heq; contradiction|]. intros _. reflexivity.
  - split; [reflexivity|]. split; [intros Hc; discriminate Hc|].
    intros _ _. split; [reflexivity|]. apply RedirectHandler_status.
Qed.

End Producer.

(** ** The goroutines *)

Section Goroutines.
Context {W : Type} `{JSON} `{KafkaWriter W} `{Redirection}.
Variable env : Environ.
Implicit Types (p q : Proc W) (k : W).

(** X12. A consumer goroutine only logs: a step of [consume] (reaching
    the loop, or an iteration on a message or on an error) adds one line
    to the log and nothing else to the trace; it leaves the broker client
    of the producer, the answers of the server and [main] where they
    were. *)
Theorem consumer_steps_only_log l p p' :
  step env l p = Some p' ->
  (exists topic, l = ConsumerRuns topic) \/
  (exists topic res, l = ReadMessageReturns topic res) ->
  (exists line, trace (world p') = trace (world p) ++ [Logged line]) /\
  writer (world p') = writer (world p) /\
  answered p' = answered p /\
  mainpc p' = mainpc p.
Proof.
  intros Hstep Hl. unfold step in Hstep.
  destruct (exited p); [discriminate|].
  destruct Hl as [[topic ->]|(topic & res & ->)].
  - assert (Hp' : p' = {| mainpc := mainpc p;
                          consumers := <[topic := Reading]> (consumers p);
                          wg := wg p; exited := None; answered := answered p;
                          world := logging p (Printf "Consumer started for topic %s"
                                                     [Str topic]) |}).
    { destruct (consumers p !! topic) as [[]|];
        destruct (mainpc p) as [[|]| |]; try discriminate;
        injection Hstep as <-; reflexivity. }
    rewrite Hp'. cbn. repeat split. eexists. reflexivity.
  - destruct (consumeIteration topic res) as [line break] eqn:Hit.
    assert (Hp' : world p' = logging p line /\ answered p' = answered p /\
                  mainpc p' = mainpc p).
    { destruct (consumers p !! topic) as [[]|];
        destruct (mainpc p) as [[|]| |]; try discriminate;
        destruct break; try destruct (wg_Done p);
        injection Hstep as <-; repeat split. }
    destruct Hp' as (-> & -> & ->). cbn. repeat split. eexists. reflexivity.
Qed.

Lemma receive_step p topic m :
  exited p = None ->
  consumers p !! topic = Some Reading ->
  step env (ReadMessageReturns topic (inr m)) p =
  Some {| mainpc := mainpc p; consumers := consumers p; wg := wg p;
          exited := None; answered := answered p;
          world := {| writer := writer (world p);
                      trace := trace (world p) ++ [receivedLine m] |} |}.
Proof.
  intros Hex Hc. unfold step. rewrite Hex, Hc. cbn [consumeIteration].
  destruct (mainpc p) as [[|]| |]; reflexivity.
Qed.

(** X13. The loop of [consume] does not end on messages: a consumer that
    is reading takes any number of messages, logs one line for each, in
    order, with the topic, offset, key and value of the message, and is
    still reading afterwards; the WaitGroup, [main], the other consumers
    and the broker client are untouched. *)
Theorem consumer_reads_every_message (ms : list Message) p topic :
  exited p = None ->
  consumers p !! topic = Some Reading ->
  exists p',
    run env (receive topic ms) p = Some p' /\
    trace (world p') = trace (world p) ++ map receivedLine ms /\
    consumers p' = consumers p /\
    wg p' = wg p /\
    mainpc p' = mainpc p /\
    exited p' = None /\
    writer (world p') = writer (world p).
Proof.
  revert p. induction ms as [|m ms IH]; intros p Hex Hc.
  - exists p. cbn. rewrite app_nil_r. repeat split. exact Hex.
  - cbn [receive map run]. rewrite (receive_step p topic m Hex Hc).
    match goal with |- context [run env _ ?q] => destruct (IH q eq_refl Hc)
      as (p' & Hrun & Htr & Hcs & Hwg & Hpc & Hex' & Hk) end.
    exists p'. split; [exact Hrun|]. cbn in *.
    rewrite Htr, <- app_assoc. repeat split; assumption.
Qed.

(** X14. In every state the process can reach, the WaitGroup counts the
    consumer goroutines that have not returned: it is never negative and
    never above three, so [wg.Done] never panics; and the process has
    either not ended, or ended with status 1 out of
    [http.ListenAndServe], or with status 0 out of [wg.Wait]. *)
Theorem waitgroup_counts_live_consumers k p :
  reachable env k p ->
  wg p = pending (consumers p) /\
  0 <= wg p <= 3 /\
  (exited p = None \/
   (exited p = Some 1 /\ mainpc p = Serving) \/
   (exited p = Some 0 /\ mainpc p = Waiting /\ wg p = 0)).
Proof.
  intros Hreach.
  destruct (exits_reachable env k p Hreach) as ((Hwg & _ & _) & Hexit & _).
  split; [exact Hwg|]. split.
  - rewrite Hwg. pose proof (pending_nonneg (consumers p)) as Hge.
    split; [exact Hge|]. unfold pending, topics. cbn [foldr].
    assert (Hw : forall c, weight c <= 1) by (intros [[]|]; cbn; lia).
    pose proof (Hw (consumers p !! movieTopic)).
    pose proof (Hw (consumers p !! userTopic)).
    pose proof (Hw (consumers p !! paymentTopic)). lia.
  - unfold exitsOK in Hexit. destruct (exited p) as [code|]; [|left; reflexivity].
    destruct Hexit as [[-> Hpc]|(-> & Hpc & Hz)]; [right; left|right; right]; auto.
Qed.

(** X15. [main] returns (status 0) only after every consumer loop has
    returned: where [wg.Wait] is reached, it does wait for the three
    goroutines. *)
Theorem normal_exit_follows_all_consumers k p :
  reachable env k p ->
  exited p = Some 0 ->
  forall t, In t topics -> consumers p !! t = Some Returned.
Proof.
  intros Hreach Hzero t Ht.
  destruct (exits_reachable env k p Hreach) as ((Hwg & _ & _) & Hexit & Hall).
  unfold exitsOK in Hexit. rewrite Hzero in Hexit.
  destruct Hexit as [[Hone _]|(_ & Hpc & Hz)]; [discriminate Hone|].
  pose proof (pending_ge_weight (consumers p) t Ht) as Hge.
  rewrite <- Hwg, Hz in Hge.
  destruct (consumers p !! t) as [[]|] eqn:Hc; cbn [weight] in Hge; try lia.
  - reflexivity.
  - destruct (Hall t Ht Hc) as (rest & Hrest & _). congruence.
Qed.

End Goroutines.

(** ** The theorems on concrete requests and runs *)

Section Witnesses.
Import Reference ReferenceSpec.

(** X8, witness: [handleEvent] for the topic audit-events. *)
Lemma unknown_topic_is_rejected_witness :
  fst (handleEvent "audit-events" (postMovie viewBody) brokerUp) =
    http_Error "Unknown event type" 400 /\
  snd (handleEvent "audit-events" (postMovie viewBody) brokerUp) = brokerUp.
Proof.
  apply (unknown_topic_is_rejected "audit-events" (postMovie viewBody) brokerUp eq_refl).
  intros [Heq|[Heq|[Heq|[]]]]; discriminate Heq.
Defined.

(** X9, witness: the request of the specification with a codec that
    cannot marshal. *)
Lemma marshal_failure_is_internal_error_witness :
  StatusCode (fst (@handleEvent Broker jsonNoMarshal broker movieTopic
                     (postMovie viewBody) brokerUp)) = 500 /\
  trace (snd (@handleEvent Broker jsonNoMarshal broker movieTopic
                (postMovie viewBody) brokerUp)) = [DecodedBody viewBody].
Proof.
  assert (Hin : In movieTopic topics) by (left; reflexivity).
  assert (Hdec : @decodeAs jsonNoMarshal movieTopic (Body (postMovie viewBody)) =
                 inr (PtrMovieEvent viewEvent)) by (vm_compute; reflexivity).
  destruct (@marshal_failure_is_internal_error Broker jsonNoMarshal broker
              movieTopic (postMovie viewBody) brokerUp (PtrMovieEvent viewEvent)
              errUnsupported eq_refl Hin Hdec eq_refl) as (Hresp & Htrace & _).
  split; [rewrite Hresp; reflexivity|exact Htrace].
Defined.

(** X11, witness: POST /api/events/movie/ , with the slash, is answered
    404, and POST /api/events//movie is redirected. *)
Lemma other_paths_leave_the_broker_alone_witness :
  StatusCode (fst (serve postMovieSlash brokerUp)) = 404 /\
  snd (serve postMovieSlash brokerUp) = brokerUp /\
  fst (serve postMovieDoubleSlash brokerUp) =
    RedirectHandler "/api/events/movie" postMovieDoubleSlash /\
  snd (serve postMovieDoubleSlash brokerUp) = brokerUp.
Proof.
  assert (Hnot : forall topic, ~ In (Path postMovieSlash, topic) eventEndpoints).
  { intros topic [Heq|[Heq|[Heq|[]]]]; discriminate Heq. }
  assert (Hnot' : forall topic,
             ~ In (Path postMovieDoubleSlash, topic) eventEndpoints).
  { intros topic [Heq|[Heq|[Heq|[]]]]; discriminate Heq. }
  destruct (other_paths_leave_the_broker_alone postMovieSlash brokerUp Hnot)
    as (Hw & H404 & _).
  destruct (other_paths_leave_the_broker_alone postMovieDoubleSlash brokerUp Hnot')
    as (Hw' & _ & Hred).
  split; [apply (H404 eq_refl); discriminate|]. split; [exact Hw|].
  split; [exact (proj1 (Hred eq_refl eq_refl))|exact Hw'].
Defined.

(** X12, witness: a message arrives on user-events after startup. *)
Lemma consumer_steps_only_log_witness :
  exists p',
    step ∅ (ReadMessageReturns userTopic (inr (message 7 "signup")))
         (serving ∅ (writer brokerUp)) = Some p' /\
    writer (world p') = writer brokerUp /\
    answered p' = [].
Proof.
  destruct (step ∅ (ReadMessageReturns userTopic (inr (message 7 "signup")))
                 (serving ∅ (writer brokerUp))) as [p'|] eqn:Hstep;
    [|vm_compute in Hstep; discriminate Hstep].
  exists p'. split; [reflexivity|].
  destruct (consumer_steps_only_log ∅ _ _ p' Hstep
              (or_intror (ex_intro _ userTopic (ex_intro _ _ eq_refl))))
    as (_ & Hk & Hans & _).
  split; [exact Hk|exact Hans].
Defined.

(** X13, witness: two messages arrive on user-events after startup. *)
Lemma consumer_reads_every_message_witness :
  exists p',
    run ∅ (receive userTopic [message 7 "signup"; message 8 "login"])
        (serving ∅ (writer brokerUp)) = Some p' /\
    consumers p' !! userTopic = Some Reading /\
    wg p' = 3.
Proof.
  assert (Hc : consumers (serving ∅ (writer brokerUp)) !! userTopic = Some Reading)
    by (vm_compute; reflexivity).
  destruct (consumer_reads_every_message ∅ [message 7 "signup"; message 8 "login"]
              (serving ∅ (writer brokerUp)) userTopic eq_refl Hc)
    as (p' & Hrun & _ & Hcs & Hwg & _).
  exists p'. split; [exact Hrun|]. rewrite Hcs, Hwg. split; [exact Hc|reflexivity].
Defined.

(** X14, witness: the process after startup. *)
Lemma waitgroup_counts_live_consumers_witness :
  wg (serving ∅ (writer brokerUp)) = pending (consumers (serving ∅ (writer brokerUp))) /\
  0 <= wg (serving ∅ (writer brokerUp)) <= 3.
Proof.
  destruct (waitgroup_counts_live_consumers ∅ (writer brokerUp) _
              (serving_reachable ∅ (writer brokerUp))) as (Hwg & Hrange & _).
  split; [exact Hwg|exact Hrange].
Defined.

(** X15, witness: the three loops end on a read error, then
    [http.ListenAndServe] returns without error and [wg.Wait] returns. *)
Lemma normal_exit_follows_all_consumers_witness :
  exists p,
    run ∅ orderlyEnd (start (writer brokerUp)) = Some p /\
    exited p = Some 0 /\
    forall t, In t topics -> consumers p !! t = Some Returned.
Proof.
  destruct (run ∅ orderlyEnd (start (writer brokerUp))) as [p|] eqn:Hrun;
    [|vm_compute in Hrun; discriminate Hrun].
  assert (Hzero : exited p = Some 0).
  { vm_compute in Hrun. injection Hrun as <-. reflexivity. }
  exists p. split; [reflexivity|]. split; [exact Hzero|].
  apply (normal_exit_follows_all_consumers ∅ (writer brokerUp) p); [|exact Hzero].
  exists orderlyEnd. exact Hrun.
Defined.

End Witnesses.

End EventsExtra.
